(** * monorm: field descriptors, schema assembly, coercion/validation,
      lazy materialization and dirty tracking

    A shallow embedding of [monorm/fields.py] and [monorm/model.py].

    Python objects are rendered as follows.
    - Runtime values are the inductive [value]; the two mapping flavours the
      code distinguishes (a builtin [dict], which refuses new attributes, and
      an instance of the model's [dict_class], which accepts the
      [_skip_validate] marker) are told apart by [map_kind].
    - A mapping is an association list in insertion order with the update
      discipline of an ordered dict ([dict_set], [dict_pop], [dict_get]).
    - An exception is a value of [exn]; a computation that may raise and may
      call user hooks is a value of [M], which also records every call of a
      converter, a validator and of [warn] in a log.
    - An instance of a model class is the record [instance]: the slot
      [_data], the remaining entries of the instance [__dict__] and the two
      optional dirty sets.  Methods that mutate the instance take it as an
      argument and return the updated instance.
    - A class is known by its name: [isinstance] compares names along the
      method resolution order.  Fields that a class inherits are not part of
      its schema, as in the code, which reads the class's own [__dict__].

    What is left out: the derivation of descriptors from type hints
    ([_parse_type_hints], [_hint_to_field]); the argument checks of the
    descriptor constructors; [_combine_marked_fields], [to_json] and
    [__str__]; the sharing of one mapping object between a
    parent's backing map, the nested instance built from it and the instance
    it was taken from (a nested instance carries its own copy of the data);
    floats are rendered as rationals and [len] of a string as its length in
    bytes. *)

From stdpp Require Import base option list gmap strings.
From Stdlib Require Import ZArith QArith.

Set Warnings "-register-all,-clear-no-such-hyp".

Local Close Scope Q_scope.
Local Open Scope string_scope.
Local Open Scope list_scope.

(** ** Exceptions *)

(** The checks of [monorm.fields.ValidationError], one constructor per
    message. *)
Inductive violation :=
| FieldMissing (name : string)      (* 'Field {!r} is missing.' *)
| WrongType                         (* validate_type *)
| TooLong | TooShort                (* validate_max_length, validate_min_length *)
| TooBig | TooSmall                 (* validate_max_value, validate_min_value *)
| NotAccepted.                      (* validate_fn *)

Inductive exn :=
| ValidationError (why : violation)
| ValueError_not_list_like          (* '{!r} must be a list-like object' *)
| ValueError_not_dict_like          (* '{!r} must be a dict-like object' *)
| ValueError_not_defined (name : string)  (* '{!r} is not defined in {!r}.' *)
| AttributeError_no_value (name : string) (* 'Field {!r} has no value; ...' *)
| AttributeError_no_attribute (name : string) (* the interpreter's own *)
| TypeError_not_a_mapping           (* the interpreter's own: item access on
                                       a value that has none, as None[k] *)
| Raised (what : string).           (* anything a user hook raises *)

(** The error taxonomy of the specification (section 7), and the class each
    exception of the code falls in. *)
Inductive error_class :=
| MissingField | TypeMismatch | BoundsViolation | ValidatorRejected
| FieldNotFound | OtherError.

Definition classify (e : exn) : error_class :=
  match e with
  | ValidationError (FieldMissing _) => MissingField
  | ValidationError WrongType => TypeMismatch
  | ValidationError (TooLong | TooShort | TooBig | TooSmall) => BoundsViolation
  | ValidationError NotAccepted => ValidatorRejected
  | ValueError_not_list_like | ValueError_not_dict_like => TypeMismatch
  | ValueError_not_defined _ => FieldNotFound
  | _ => OtherError
  end.

Inductive res (A : Type) :=
| Ok (a : A)
| Err (e : exn).
Arguments Ok {A} a.
Arguments Err {A} e.

(** ** Values *)

(** [PlainDict] is the builtin [dict]: it has no instance [__dict__], so
    setting an attribute on it raises AttributeError.  [AttrDict] stands for
    [collections.OrderedDict], [bson.son.SON] and the like. *)
Inductive map_kind := PlainDict | AttrDict.

Inductive value :=
| VNone
| VBool (b : bool)
| VInt (z : Z)
| VFloat (q : Q)
| VStr (s : string)
| VBytes (s : string)
| VDateTime (t : Z)
| VObjectId (oid : string)
| VList (xs : list value)                      (* list *)
| VTuple (xs : list value)                     (* tuple *)
| VMap (k : map_kind) (skip_validate : bool) (items : list (string * value))
| VInst (i : instance)                         (* an instance of a model class *)
| VObject (tag : string)                       (* a value of another builtin type *)
with instance :=
| Inst (mro : list string)                              (* type(self).__mro__, by class name *)
       (_data : value)                                  (* self._data *)
       (dict : list (string * value))                   (* the other entries of self.__dict__ *)
       (_modified_fields _deleted_fields : option (gset string)).

Definition inst_mro (i : instance) := let 'Inst mro _ _ _ _ := i in mro.
Definition inst_data (i : instance) := let 'Inst _ d _ _ _ := i in d.
Definition inst_dict (i : instance) := let 'Inst _ _ dk _ _ := i in dk.
Definition inst_modified (i : instance) := let 'Inst _ _ _ m _ := i in m.
Definition inst_deleted (i : instance) := let 'Inst _ _ _ _ d := i in d.

Definition is_none (v : value) : bool :=
  match v with VNone => true | _ => false end.

(** ** Ordered mappings *)

Section dict.
Context {A : Type}.

(* d.get(k) / d[k] *)
Fixpoint dict_get (k : string) (d : list (string * A)) : option A :=
  match d with
  | [] => None
  | (k', v) :: d' => if String.eqb k k' then Some v else dict_get k d'
  end.

(* d[k] = v: an existing key keeps its position *)
Fixpoint dict_set (k : string) (v : A) (d : list (string * A)) : list (string * A) :=
  match d with
  | [] => [(k, v)]
  | (k', v') :: d' =>
      if String.eqb k k' then (k, v) :: d' else (k', v') :: dict_set k v d'
  end.

(* d.pop(k, None) *)
Fixpoint dict_pop (k : string) (d : list (string * A)) : list (string * A) :=
  match d with
  | [] => []
  | (k', v') :: d' =>
      if String.eqb k k' then d' else (k', v') :: dict_pop k d'
  end.

(* k in d *)
Definition dict_mem (k : string) (d : list (string * A)) : bool :=
  match dict_get k d with Some _ => true | None => false end.

(* the keys of a mapping are pairwise distinct *)
Definition dict_wf (d : list (string * A)) : Prop := NoDup (d.*1).
End dict.

(* name in names, for a list of strings *)
Definition str_mem (k : string) (l : list string) : bool :=
  existsb (String.eqb k) l.

(** ** Computations: exceptions and the log of hook calls *)

Inductive event :=
| CallConverter (field_name : string) (arg : value)
| CallValidator (field_name : string) (arg : value)
| Warn (key : string) (model : string).

Definition M (A : Type) : Type := res A * list event.

Definition ret {A} (a : A) : M A := (Ok a, []).
Definition raise {A} (e : exn) : M A := (Err e, []).
Definition emit (ev : event) : M unit := (Ok tt, [ev]).
Definition lift {A} (r : res A) : M A := (r, []).

Definition bind {A B} (m : M A) (f : A -> M B) : M B :=
  match m with
  | (Ok a, l) => let '(r, l') := f a in (r, l ++ l')
  | (Err e, l) => (Err e, l)
  end.

Declare Scope monorm_scope.
Delimit Scope monorm_scope with monorm.
Notation "x <- m ;; k" := (bind m (fun x => k))
  (at level 90, m at next level, right associativity) : monorm_scope.
Notation "m ;;; k" := (bind m (fun _ => k))
  (at level 90, right associativity) : monorm_scope.
Local Open Scope monorm_scope.

Section loops.
Context {A B : Type} (f : A -> M B).

(* [f(x) for x in xs] *)
Fixpoint collect (xs : list A) : M (list B) :=
  match xs with
  | [] => ret []
  | x :: xs' => y <- f x ;; ys <- collect xs' ;; ret (y :: ys)
  end.
End loops.

Section loops_unit.
Context {A : Type} (f : A -> M unit).

(* for x in xs: f(x) *)
Fixpoint forM_ (xs : list A) : M unit :=
  match xs with
  | [] => ret tt
  | x :: xs' => f x ;;; forM_ xs'
  end.
End loops_unit.

(** ** Field descriptors *)

(** [Field.default] is a value or a zero-argument factory. *)
Inductive default_spec :=
| DefaultValue (v : value)
| DefaultFactory (make : unit -> value).

(** The attributes every [Field] carries ([Field.__init__]).  A descriptor
    that never received a name (the root descriptor of [_clean], the element
    descriptor of an array) has the empty string here; the code reads the
    name of such a descriptor in error messages only. *)
Record base := Base {
  name : string;
  required : bool;
  default : default_spec;
  converter : option (value -> res value);
  validator : option (value -> res bool);
}.

(** The classes without a [convert] or [validate] of their own beyond
    [Field], [StringField] and [NumberField]. *)
Inductive leaf_kind :=
| PlainField
| StringField (max_length min_length : option Z)
| NumberField (max_value min_value : option Q)
| IntField (max_value min_value : option Q)
| FloatField (max_value min_value : option Q)
| BooleanField
| BytesField
| DateTimeField
| ObjectIdField
| ListField
| DictField
| AnyField.

(** [field] is a descriptor object; [model] is a model class after
    [ModelType] has processed it: its name, the names of the classes it
    derives from, its descriptors by attribute name in [_field_order], and
    the class attributes the code reads. *)
Inductive field :=
| Leaf (k : leaf_kind) (b : base)
| ArrayField (b : base) (elem : field)              (* self.field = elem *)
| EmbeddedField (b : base) (m : model)              (* self.model = m *)
with model :=
| Model (cls : string) (bases : list string)
        (fields : list (string * field))
        (retain_none warn_extra_data : bool)
        (dict_class : map_kind).

Definition field_base (f : field) : base :=
  match f with
  | Leaf _ b | ArrayField b _ | EmbeddedField b _ => b
  end.
Definition field_name (f : field) : string := name (field_base f).

Definition model_cls (m : model) := let 'Model c _ _ _ _ _ := m in c.
Definition model_mro (m : model) := let 'Model c bs _ _ _ _ := m in c :: bs.
Definition model_fields (m : model) := let 'Model _ _ fs _ _ _ := m in fs.
Definition model_retain_none (m : model) := let 'Model _ _ _ r _ _ := m in r.
Definition model_warn_extra_data (m : model) := let 'Model _ _ _ _ w _ := m in w.
Definition model_dict_class (m : model) := let 'Model _ _ _ _ _ k := m in k.

(* type(self).__dict__['_field_order'] *)
Definition field_order (m : model) : list string := (model_fields m).*1.

(** ** Runtime type tests *)

Inductive pytype :=
| T_str | T_int | T_float | T_bool | T_bytes | T_datetime | T_ObjectId
| T_MutableSequence | T_MutableMapping | T_object.

(* isinstance(v, t); bool is a subclass of int *)
Definition isinstance (v : value) (t : pytype) : bool :=
  match t, v with
  | T_object, _ => true
  | T_str, VStr _ => true
  | T_int, (VInt _ | VBool _) => true
  | T_float, VFloat _ => true
  | T_bool, VBool _ => true
  | T_bytes, VBytes _ => true
  | T_datetime, VDateTime _ => true
  | T_ObjectId, VObjectId _ => true
  | T_MutableSequence, VList _ => true
  | T_MutableMapping, VMap _ _ _ => true
  | _, _ => false
  end.

(* isinstance(i, cls), for a class given by name *)
Definition isinstance_cls (i : instance) (cls : string) : bool :=
  str_mem cls (inst_mro i).

(* the class attribute expected_types *)
Definition expected_types (k : leaf_kind) : list pytype :=
  match k with
  | PlainField => []
  | StringField _ _ => [T_str]
  | NumberField _ _ => [T_int; T_float]
  | IntField _ _ => [T_int]
  | FloatField _ _ => [T_float]
  | BooleanField => [T_bool]
  | BytesField => [T_bytes]
  | DateTimeField => [T_datetime]
  | ObjectIdField => [T_ObjectId]
  | ListField => [T_MutableSequence]
  | DictField => [T_MutableMapping]
  | AnyField => [T_object]
  end.

(** ** The validate_* helpers *)

Definition validate_type (v : value) (types : list pytype) : M unit :=
  if existsb (isinstance v) types then ret tt
  else raise (ValidationError WrongType).

(* the number a value compares as; floats are rendered as rationals *)
Definition as_number (v : value) : option Q :=
  match v with
  | VInt z => Some (inject_Z z)
  | VBool b => Some (inject_Z (if b then 1 else 0))
  | VFloat q => Some q
  | _ => None
  end.

(* len(v) *)
Definition py_len (v : value) : option Z :=
  match v with
  | VStr s | VBytes s => Some (Z.of_nat (String.length s))
  | VList xs | VTuple xs => Some (Z.of_nat (length xs))
  | VMap _ _ items => Some (Z.of_nat (length items))
  | _ => None
  end.

Definition validate_max_value (v : value) (max_value : Q) : M unit :=
  match as_number v with
  | Some q => if Qle_bool q max_value then ret tt
              else raise (ValidationError TooBig)
  | None => raise (Raised "TypeError")
  end.

Definition validate_min_value (v : value) (min_value : Q) : M unit :=
  match as_number v with
  | Some q => if Qle_bool min_value q then ret tt
              else raise (ValidationError TooSmall)
  | None => raise (Raised "TypeError")
  end.

Definition validate_max_length (v : value) (max_length : Z) : M unit :=
  match py_len v with
  | Some n => if (n <=? max_length)%Z then ret tt
              else raise (ValidationError TooLong)
  | None => raise (Raised "TypeError")
  end.

Definition validate_min_length (v : value) (min_length : Z) : M unit :=
  match py_len v with
  | Some n => if (min_length <=? n)%Z then ret tt
              else raise (ValidationError TooShort)
  | None => raise (Raised "TypeError")
  end.

Definition validate_fn (field_name : string) (v : value)
    (validator : value -> res bool) : M unit :=
  emit (CallValidator field_name v) ;;;
  accepted <- lift (validator v) ;;
  if accepted : bool then ret tt else raise (ValidationError NotAccepted).

(** ** Field.convert and Field.validate *)

Definition default_value (d : default_spec) : value :=
  match d with
  | DefaultValue v => v
  | DefaultFactory make => make tt
  end.

Definition Field_convert (b : base) (v : value) : M value :=
  let v := if is_none v then default_value (default b) else v in
  match converter b with
  | Some c =>
      if is_none v then ret v
      else emit (CallConverter (name b) v) ;;; lift (c v)
  | None => ret v
  end.

Definition Field_validate (types : list pytype) (b : base) (v : value) : M unit :=
  if is_none v then
    if required b then raise (ValidationError (FieldMissing (name b)))
    else ret tt
  else
    validate_type v types ;;;
    match validator b with
    | Some p => validate_fn (name b) v p
    | None => ret tt
    end.

Definition opt_check {A} (bound : option A) (check : A -> M unit) : M unit :=
  match bound with Some x => check x | None => ret tt end.

(* StringField.validate, NumberField.validate and the inherited Field.validate *)
Definition Leaf_validate (k : leaf_kind) (b : base) (v : value) : M unit :=
  Field_validate (expected_types k) b v ;;;
  if is_none v then ret tt
  else
    match k with
    | StringField max_length min_length =>
        opt_check max_length (validate_max_length v) ;;;
        opt_check min_length (validate_min_length v)
    | NumberField max_value min_value
    | IntField max_value min_value
    | FloatField max_value min_value =>
        opt_check max_value (validate_max_value v) ;;;
        opt_check min_value (validate_min_value v)
    | _ => ret tt
    end.

(** ** Model instances built without conversion *)

(* BaseModel.from_data: cls(bypass_conversion=True, bypass_validation=True),
   then obj._data = data *)
Definition from_data (m : model) (data : value) : instance :=
  Inst (model_mro m) data [] None None.

(* BaseModel.to_dict *)
Definition to_dict (i : instance) : value := inst_data i.

(* isinstance(obj, self.model) *)
Definition instance_of (obj : value) (m : model) : option instance :=
  match obj with
  | VInst i => if isinstance_cls i (model_cls m) then Some i else None
  | _ => None
  end.

(* dk._skip_validate = True.  A builtin dict, None and the other builtin
   values have no attribute to set; an instance stores it in its __dict__. *)
Definition set_skip_validate (dk : value) : res value :=
  match dk with
  | VMap AttrDict _ items => Ok (VMap AttrDict true items)
  | VInst (Inst mro data d md dl) =>
      Ok (VInst (Inst mro data (dict_set "_skip_validate" (VBool true) d) md dl))
  | _ => Err (AttributeError_no_attribute "_skip_validate")
  end.

(* hasattr(obj, '_skip_validate') *)
Definition has_skip_validate (obj : value) : bool :=
  match obj with
  | VMap _ skip _ => skip
  | VInst i => dict_mem "_skip_validate" (inst_dict i)
  | _ => false
  end.

(* obj.get(name) *)
Definition obj_get (name : string) (items : list (string * value)) : value :=
  from_option id VNone (dict_get name items).

(** ** EmbeddedField and ArrayField: convert and validate *)

Section field_loops.
Context (conv : field -> value -> M value) (valid : field -> value -> M unit).

(* for name, field in fields.items():
       value = field.convert(obj.get(name)) ... rv[field.name] = ... *)
Fixpoint convert_fields (retain_none : bool) (obj : list (string * value))
    (fields : list (string * field)) (rv : list (string * value))
    : M (list (string * value)) :=
  match fields with
  | [] => ret rv
  | (name, fld) :: rest =>
      value <- conv fld (obj_get name obj) ;;
      convert_fields retain_none obj rest
        (if is_none value then
           if retain_none then dict_set (field_name fld) VNone rv else rv
         else dict_set (field_name fld) value rv)
  end.

(* for name, field in fields.items(): field.validate(obj.get(name)) *)
Fixpoint validate_fields (obj : list (string * value))
    (fields : list (string * field)) : M unit :=
  match fields with
  | [] => ret tt
  | (name, fld) :: rest =>
      valid fld (obj_get name obj) ;;; validate_fields obj rest
  end.
End field_loops.

(* for name, value in obj.items():
       if name not in fields: rv[name] = value *)
Fixpoint copy_undeclared (fields : list (string * field))
    (items rv : list (string * value)) : list (string * value) :=
  match items with
  | [] => rv
  | (name, value) :: rest =>
      copy_undeclared fields rest
        (if dict_mem name fields then rv else dict_set name value rv)
  end.

(** Modelled from the spec: [warn] of [monorm/utils.py], which is not among
    the sources.  Section 7 has an extra key "reported through a side
    channel, never raised"; here the report is an entry of the log. *)
Definition warn (key cls : string) : M unit := emit (Warn key cls).

(* for key, value in obj.items():
       if key not in names: warn(...) *)
Fixpoint warn_extra (cls : string) (names : list string)
    (items : list (string * value)) : M unit :=
  match items with
  | [] => ret tt
  | (key, _) :: rest =>
      (if str_mem key names then ret tt else warn key cls) ;;;
      warn_extra cls names rest
  end.

(** [convert f v] is [f.convert(v)]: the method of the class of [f]. *)
Fixpoint convert (f : field) (v : value) {struct f} : M value :=
  match f with
  | Leaf _ b => Field_convert b v
  | ArrayField b elem =>
      (* ArrayField.convert *)
      values <- Field_convert b v ;;
      match values with
      | VNone => ret VNone
      | VList xs | VTuple xs =>
          converted <- collect (convert elem) xs ;; ret (VList converted)
      | _ => raise ValueError_not_list_like
      end
  | EmbeddedField b m =>
      (* EmbeddedField.convert *)
      match instance_of v m with
      | Some i => lift (set_skip_validate (to_dict i))
      | None =>
          obj <- Field_convert b v ;;
          match obj with
          | VNone => ret VNone
          | VMap _ _ items =>
              let 'Model _ _ fields retain_none _ dict_class := m in
              rv <- convert_fields convert retain_none items fields [] ;;
              ret (VMap dict_class false (copy_undeclared fields items rv))
          | _ => raise ValueError_not_dict_like
          end
      end
  end.

(** [validate f v] is [f.validate(v)]. *)
Fixpoint validate (f : field) (v : value) {struct f} : M unit :=
  match f with
  | Leaf k b => Leaf_validate k b v
  | ArrayField b elem =>
      (* ArrayField.validate; past the type test a value is None or a list *)
      Field_validate [T_MutableSequence] b v ;;;
      match v with
      | VList xs => forM_ (validate elem) xs
      | _ => ret tt
      end
  | EmbeddedField b m =>
      (* EmbeddedField.validate; past the type test a value is None or a
         mapping *)
      if has_skip_validate v then ret tt
      else
        Field_validate [T_MutableMapping] b v ;;;
        match v with
        | VMap _ _ items =>
            let 'Model cls _ fields _ warn_extra_data _ := m in
            validate_fields validate items fields ;;;
            if warn_extra_data
            then warn_extra cls (map (fun nf => field_name nf.2) fields) items
            else ret tt
        | _ => ret tt
        end
  end.

(** ** ArrayField.innermost and read-time materialization *)

(* inner(array_field), where elem = array_field.field *)
Fixpoint inner (elem : field) : field :=
  match elem with
  | ArrayField _ elem' => inner elem'
  | _ => elem
  end.

Definition is_array (f : field) : bool :=
  match f with ArrayField _ _ => true | _ => false end.
Definition is_embedded (f : field) : bool :=
  match f with EmbeddedField _ _ => true | _ => false end.

(* walk(array_field, vals) inside self._convert_data_in_list_to_model, where
   self.field = self_elem and array_field.field = elem.  A descriptor that is
   neither embedded nor an array falls off the end of walk: None. *)
Fixpoint walk (self_elem elem : field) (vals : value) {struct elem} : M value :=
  match vals with
  | VList xs =>
      if negb (is_embedded (inner self_elem)) then ret vals
      else
        match elem with
        | EmbeddedField _ cls =>
            ret (VList (map (fun value => VInst (from_data cls value)) xs))
        | ArrayField _ elem' =>
            walked <- collect (walk self_elem elem') xs ;; ret (VList walked)
        | Leaf _ _ => ret VNone
        end
  | _ => raise ValueError_not_list_like
  end.

(* self._convert_data_in_list_to_model(values), for self = ArrayField _ elem *)
Definition _convert_data_in_list_to_model (elem : field) (values : value) : M value :=
  walk elem elem values.

(** ** Descriptor access on an instance

    The methods below mutate the instance they are given; here they return
    the outcome together with the instance as the call leaves it, also when
    the call raises.  [_data] is expected to be a mapping; on any other value
    the interpreter raises at the first item access. *)

(* dk['_data'][name] *)
Definition data_getitem (name : string) (data : value) : res value :=
  match data with
  | VMap _ _ items =>
      match dict_get name items with
      | Some v => Ok v
      | None => Err (AttributeError_no_value name)   (* from KeyError *)
      end
  | _ => Err TypeError_not_a_mapping
  end.

(* dk['_data'][name] = v *)
Definition data_setitem (name : string) (v : value) (data : value) : res value :=
  match data with
  | VMap k skip items => Ok (VMap k skip (dict_set name v items))
  | _ => Err TypeError_not_a_mapping
  end.

(* dk['_data'].pop(name, None) *)
Definition data_pop (name : string) (data : value) : res value :=
  match data with
  | VMap k skip items => Ok (VMap k skip (dict_pop name items))
  | _ => Err (AttributeError_no_attribute "pop")
  end.

(* the value Field.__get__ builds on a cache miss *)
Definition materialize (f : field) (stored : value) : M value :=
  match f with
  | EmbeddedField _ cls => ret (VInst (from_data cls stored))
  | ArrayField _ elem => _convert_data_in_list_to_model elem stored
  | Leaf _ _ => ret stored
  end.

(* Field.__get__(self, instance, cls), instance is not None *)
Definition Field_get (f : field) (i : instance) : M value * instance :=
  let 'Inst mro data dk md dl := i in
  match data_getitem (field_name f) data with
  | Err e => (raise e, i)
  | Ok VNone => (ret VNone, i)
  | Ok value =>
      if negb (is_embedded f || is_array f) then (ret value, i)
      else
        match dict_get (field_name f) dk with
        | Some cached => (ret cached, i)
        | None =>
            match materialize f value with
            | (Ok rv, l) =>
                ((Ok rv, l), Inst mro data (dict_set (field_name f) rv dk) md dl)
            | (Err e, l) => ((Err e, l), i)
            end
        end
  end.

(* Field.__set__(self, instance, value); retain_none is
   type(instance).retain_none *)
Definition Field_set (retain_none : bool) (f : field) (i : instance) (v : value)
    : M unit * instance :=
  let 'Inst mro data dk md dl := i in
  match (value <- convert f v ;; validate f value ;;; ret value) with
  | (Err e, l) => ((Err e, l), i)
  | (Ok value, l) =>
      if negb (is_none value) then
        match data_setitem (field_name f) value data with
        | Err e => ((Err e, l), i)
        | Ok data' =>
            match f with
            | EmbeddedField _ cls =>
                ((Ok tt, l),
                 Inst mro data'
                   (dict_set (field_name f) (VInst (from_data cls value)) dk) md dl)
            | ArrayField _ elem =>
                match _convert_data_in_list_to_model elem value with
                | (Ok rv, l') =>
                    ((Ok tt, l ++ l'),
                     Inst mro data' (dict_set (field_name f) rv dk) md dl)
                | (Err e, l') => ((Err e, l ++ l'), Inst mro data' dk md dl)
                end
            | Leaf _ _ => ((Ok tt, l), Inst mro data' dk md dl)
            end
        end
      else
        match (if retain_none then data_setitem (field_name f) VNone data
               else data_pop (field_name f) data) with
        | Err e => ((Err e, l), i)
        | Ok data' => ((Ok tt, l), Inst mro data' (dict_pop (field_name f) dk) md dl)
        end
  end.

(* Field.__delete__(self, instance) *)
Definition Field_delete (f : field) (i : instance) : M unit * instance :=
  let 'Inst mro data dk md dl := i in
  match data_pop (field_name f) data with
  | Err e => (raise e, i)
  | Ok data' => (ret tt, Inst mro data' (dict_pop (field_name f) dk) md dl)
  end.

(** ** BaseModel: construction and dirty tracking *)

(* root = EmbeddedField().init_root(cls) *)
Definition root (cls : model) : field :=
  EmbeddedField (Base "" false (DefaultValue VNone) None None) cls.

(* BaseModel._clean *)
Definition _clean (cls : model) (data : value)
    (bypass_conversion bypass_validation : bool) : M value :=
  data <- (if bypass_conversion then ret data else convert (root cls) data) ;;
  (if bypass_validation then ret tt else validate (root cls) data) ;;;
  ret data.

(* BaseModel.__init__: cls(bypass_conversion, bypass_validation, **kw) *)
Definition new (cls : model) (bypass_conversion bypass_validation : bool)
    (kw : list (string * value)) : M instance :=
  data <- _clean cls (VMap PlainDict false kw) bypass_conversion bypass_validation ;;
  ret (Inst (model_mro cls) data [] None None).

(* the set a dirty slot stands for *)
Definition marked (slot : option (gset string)) : gset string :=
  from_option id ∅ slot.

(* BaseModel._init_marked_fields *)
Definition _init_marked_fields (i : instance) : instance :=
  let 'Inst mro data dk md dl := i in
  Inst mro data dk
    (Some (match md with None => ∅ | Some s => s end))
    (Some (match dl with None => ∅ | Some s => s end)).

(* self._deleted_fields.add(name); self._modified_fields.discard(name),
   after _init_marked_fields *)
Definition mark_deleted (name : string) (i : instance) : instance :=
  let 'Inst mro data dk md dl := _init_marked_fields i in
  Inst mro data dk (Some (marked md ∖ {[name]})) (Some ({[name]} ∪ marked dl)).

(* self._modified_fields.add(name); self._deleted_fields.discard(name),
   after _init_marked_fields *)
Definition mark_modified (name : string) (i : instance) : instance :=
  let 'Inst mro data dk md dl := _init_marked_fields i in
  Inst mro data dk (Some ({[name]} ∪ marked md)) (Some (marked dl ∖ {[name]})).

(* self.__dict__[name] = value, for a name that is no descriptor *)
Definition dict_store (name : string) (v : value) (i : instance) : instance :=
  let 'Inst mro data dk md dl := i in Inst mro data (dict_set name v dk) md dl.

(** BaseModel.__setattr__(self, name, value), where [cls] is [type(self)].
    The base implementation [object.__setattr__] calls the descriptor of a
    declared name and stores any other name in the instance [__dict__]
    (the three slots [_data], [_modified_fields] and [_deleted_fields] are
    assigned by the constructors only and are not assignable here). *)
Definition __setattr__ (cls : model) (i : instance) (name : string) (v : value)
    : M unit * instance :=
  let fields := field_order cls in
  let i :=
    if str_mem name fields then
      if negb (model_retain_none cls) && is_none v
      then mark_deleted name i
      else mark_modified name i
    else i in
  match dict_get name (model_fields cls) with
  | Some f => Field_set (model_retain_none cls) f i v
  | None => (ret tt, dict_store name v i)
  end.

(** BaseModel.__delattr__(self, name). *)
Definition __delattr__ (cls : model) (i : instance) (name : string)
    : M unit * instance :=
  let fields := field_order cls in
  let i := if str_mem name fields then mark_deleted name i else i in
  match dict_get name (model_fields cls) with
  | Some f => Field_delete f i
  | None =>
      let 'Inst mro data dk md dl := i in
      if dict_mem name dk then (ret tt, Inst mro data (dict_pop name dk) md dl)
      else (raise (AttributeError_no_attribute name), i)
  end.

(* bool(s) for an optional set: None and the empty set are false *)
Definition truthy (slot : option (gset string)) : bool :=
  match slot with
  | Some s => negb (bool_decide (s = ∅))
  | None => false
  end.

(* s.clear(), reached only past truthy, hence on a set *)
Definition set_clear (slot : option (gset string)) : option (gset string) :=
  match slot with
  | Some _ => Some ∅
  | None => None
  end.

(** BaseModel._clear_marked_fields.  Both tests read [self._modified_fields],
    the second one after the first statement has run. *)
Fixpoint _clear_marked_fields (i : instance) : instance :=
  let 'Inst mro data dk md dl := i in
  let md := if truthy md then set_clear md else md in
  let dl := if truthy md then set_clear dl else dl in
  Inst mro data
    (map (fun kv : string * value =>
            let '(key, value) := kv in
            (key,
             match value with
             | VInst nested =>
                 if isinstance_cls nested "EmbeddedModel"
                 then VInst (_clear_marked_fields nested)
                 else value
             | _ => value
             end)) dk)
    md dl.

(** ** Schema assembly: ModelType *)

Definition with_base (upd : base -> base) (f : field) : field :=
  match f with
  | Leaf k b => Leaf k (upd b)
  | ArrayField b elem => ArrayField (upd b) elem
  | EmbeddedField b m => EmbeddedField (upd b) m
  end.

(* field.name = n, field.required = True, field.converter = c,
   field.validator = p *)
Definition set_name (n : string) : field -> field :=
  with_base (fun b => Base n (required b) (default b) (converter b) (validator b)).
Definition set_required : field -> field :=
  with_base (fun b => Base (name b) true (default b) (converter b) (validator b)).
Definition set_converter (c : value -> res value) : field -> field :=
  with_base (fun b => Base (name b) (required b) (default b) (Some c) (validator b)).
Definition set_validator (p : value -> res bool) : field -> field :=
  with_base (fun b => Base (name b) (required b) (default b) (converter b) (Some p)).

(** The options of the inner class [Meta]; a missing option is the empty
    list, and [aliases] given as a dict is the list of its items. *)
Record Meta := {
  aliases : list (string * string);
  meta_required : list string;          (* Meta.required *)
  converters : list (string * (value -> res value));
  validators : list (string * (value -> res bool));
}.

(* fields[field_name] = upd(fields[field_name]), the key is present *)
Fixpoint dict_update (k : string) (upd : field -> field)
    (fields : list (string * field)) : list (string * field) :=
  match fields with
  | [] => []
  | (k', f) :: rest =>
      if String.eqb k k' then (k', upd f) :: rest
      else (k', f) :: dict_update k upd rest
  end.

(* ensure_field_exist(name) inside _process_meta *)
Definition ensure_field_exist (fields : list (string * field)) (name : string)
    : res unit :=
  if dict_mem name fields then Ok tt else Err (ValueError_not_defined name).

(* each of the four loops of _process_meta:
     for field_name, x in entries:
         ensure_field_exist(field_name); fields[field_name].attr = x *)
Fixpoint apply_meta {A} (upd : A -> field -> field) (entries : list (string * A))
    (fields : list (string * field)) : res (list (string * field)) :=
  match entries with
  | [] => Ok fields
  | (field_name, x) :: rest =>
      match ensure_field_exist fields field_name with
      | Err e => Err e
      | Ok _ => apply_meta upd rest (dict_update field_name (upd x) fields)
      end
  end.

Definition res_bind {A B} (r : res A) (k : A -> res B) : res B :=
  match r with Ok a => k a | Err e => Err e end.

(** ModelType._process_meta; [fields] are the descriptors found in
    [cls.__dict__], the result the descriptors as the overrides leave them. *)
Definition _process_meta (fields : list (string * field)) (meta : Meta)
    : res (list (string * field)) :=
  res_bind (apply_meta set_name (aliases meta) fields) (fun fields =>
  res_bind (apply_meta (fun _ : unit => set_required)
              (map (fun n => (n, tt)) (meta_required meta)) fields) (fun fields =>
  res_bind (apply_meta set_converter (converters meta) fields) (fun fields =>
  apply_meta set_validator (validators meta) fields))).

(** A class statement with [ModelType] as metaclass: the class name, its
    bases, the descriptors among its attributes in definition order
    (descriptors that [_parse_type_hints] derives from annotations are taken
    as already built), the inner [Meta], whether the class body sets
    [_no_parse_hints], and the class attributes the model code reads. *)
Record class_decl := {
  decl_name : string;
  decl_bases : list string;
  decl_attrs : list (string * field);
  decl_meta : Meta;
  decl_no_parse_hints : bool;
  decl_retain_none : bool;
  decl_warn_extra_data : bool;
  decl_dict_class : map_kind;
}.

(* ModelType.__new__: a descriptor without a name takes its attribute's *)
Definition ModelType_new (attrs : list (string * field)) : list (string * field) :=
  map (fun kf : string * field =>
         let '(key, f) := kf in
         (key, if String.eqb (field_name f) "" then set_name key f else f)) attrs.

(** ModelType.__new__ followed by ModelType.__init__: the class object, or
    the exception that aborts the class statement.  A class that sets
    [_no_parse_hints] is left without a schema. *)
Definition ModelType_call (d : class_decl) : res model :=
  if decl_no_parse_hints d then
    Ok (Model (decl_name d) (decl_bases d) []
          (decl_retain_none d) (decl_warn_extra_data d) (decl_dict_class d))
  else
    res_bind (_process_meta (ModelType_new (decl_attrs d)) (decl_meta d))
      (fun fields =>
         Ok (Model (decl_name d) (decl_bases d) fields
               (decl_retain_none d) (decl_warn_extra_data d) (decl_dict_class d))).

(** ** Sample schemas *)

Definition plain (n : string) : base := Base n false (DefaultValue VNone) None None.

Definition embedded_bases : list string := ["EmbeddedModel"; "BaseModel"; "object"].

(* class Address(EmbeddedModel): city = StringField() *)
Definition Address : model :=
  Model "Address" embedded_bases
    [("city", Leaf (StringField None None) (plain "city"))]
    true true AttrDict.

(* class User(BaseModel): name = StringField(); address = EmbeddedField(Address) *)
Definition User : model :=
  Model "User" ["BaseModel"; "object"]
    [("name", Leaf (StringField None None) (plain "name"));
     ("address", EmbeddedField (plain "address") Address)]
    true true AttrDict.

(* class Place(EmbeddedModel):
       city = StringField()
       class Meta:
           aliases = {'city': 'c'}
           required = ['city'] *)
Definition Place_decl : class_decl := {|
  decl_name := "Place";
  decl_bases := embedded_bases;
  decl_attrs := [("city", Leaf (StringField None None) (plain ""))];
  decl_meta := Build_Meta [("city", "c")] ["city"] [] [];
  decl_no_parse_hints := false;
  decl_retain_none := true;
  decl_warn_extra_data := true;
  decl_dict_class := AttrDict;
|}.

Definition Place : model :=
  Model "Place" embedded_bases
    [("city", Leaf (StringField None None) (Base "c" true (DefaultValue VNone) None None))]
    true true AttrDict.

(** ** Definitions used to state the properties *)



(* the external names of the declared fields *)
Definition external_names (fields : list (string * field)) : list string :=
  map (fun nf => field_name nf.2) fields.

(* what the first loop leaves under a field's external name *)
Definition stored (retain_none : bool) (v : value) (before : option value)
    : option value :=
  if is_none v then (if retain_none then Some VNone else before) else Some v.

(* class Profile(EmbeddedModel): city = StringField(default='NYC') *)
Definition Profile : model :=
  Model "Profile" embedded_bases
    [("city", Leaf (StringField None None)
                (Base "city" false (DefaultValue (VStr "NYC")) None None))]
    true true AttrDict.

(* class Venue(EmbeddedModel): retain_none = False; city = StringField() *)
Definition Venue : model :=
  Model "Venue" embedded_bases
    [("city", Leaf (StringField None None) (plain "city"))]
    false true AttrDict.






(* converter=lambda xs: list(reversed(xs)) *)
Definition reversed (v : value) : res value :=
  match v with
  | VList xs | VTuple xs => Ok (VList (rev xs))
  | _ => Err (Raised "TypeError")
  end.


(* every field name the configuration block refers to, in the order in
   which _process_meta reaches it *)
Definition meta_references (meta : Meta) : list string :=
  (aliases meta).*1 ++ meta_required meta ++ (converters meta).*1
  ++ (validators meta).*1.

Definition undeclared (fields : list (string * field)) (name : string) : bool :=
  negb (dict_mem name fields).

(* class Town(EmbeddedModel):
       city = StringField()
       class Meta:
           required = ['town'] *)
Definition Town_decl : class_decl := {|
  decl_name := "Town";
  decl_bases := embedded_bases;
  decl_attrs := [("city", Leaf (StringField None None) (plain ""))];
  decl_meta := Build_Meta [] ["town"] [] [];
  decl_no_parse_hints := false;
  decl_retain_none := true;
  decl_warn_extra_data := true;
  decl_dict_class := AttrDict;
|}.

(** ** Definitions used to state the further properties *)

(* the call succeeded *)
Definition returns {A} (m : M A) : Prop := exists a, m.1 = Ok a.

(* validator(value) is truthy, when a validator is set *)
Definition validator_accepts (b : base) (v : value) : Prop :=
  match validator b with
  | None => True
  | Some p => p v = Ok true
  end.

(* value <= bound, for an optional upper bound, and bound <= value, for an
   optional lower bound *)
Definition at_most {A} (le : A -> A -> Prop) (x : A) (bound : option A) : Prop :=
  match bound with Some m => le x m | None => True end.
Definition at_least {A} (le : A -> A -> Prop) (x : A) (bound : option A) : Prop :=
  match bound with Some m => le m x | None => True end.

(* no field of the schema has an external name other than its attribute name *)
Definition unaliased (cls : model) : Prop :=
  forall a f, (a, f) ∈ model_fields cls -> field_name f = a.



(** ** BaseModel._combine_marked_fields *)

(** [combine(instance, prev, attr_name, result)] inside
    [_combine_marked_fields], returning what it appends to [result]; [attr]
    is [getattr(instance, attr_name)].  Python iterates a set in no
    specified order; [elements] stands for that order.  The loop over
    [instance.__dict__.items()] is the loop over the entries that the
    descriptors cache: of the three other entries, [_modified_fields] and
    [_deleted_fields] hold a set or None and [_data] holds the backing
    mapping, none of them an [EmbeddedModel]. *)
Fixpoint combine (attr : instance -> option (gset string)) (instance : instance)
    (prev : string) {struct instance} : list string :=
  let fields := marked (attr instance) in
  map (String.append prev) (elements fields) ++
  match instance with
  | Inst _ _ dk _ _ =>
      concat
        (map (fun kv : string * value =>
                let '(key, value) := kv in
                match value with
                | VInst nested =>
                    if isinstance_cls nested "EmbeddedModel"
                       && negb (bool_decide (key ∈ fields))
                    then combine attr nested (String.append prev (String.append key "."))
                    else []
                | _ => []
                end) dk)
  end.

(* BaseModel._combine_marked_fields: (modified, deleted) *)
Definition _combine_marked_fields (self : instance) : list string * list string :=
  (combine inst_modified self "", combine inst_deleted self "").

(** Induction over an instance and the instances in its [__dict__]. *)
Section instance_dict_ind.
Context (P : instance -> Prop).
Context (step : forall mro data dk md dl,
           Forall (fun kv : string * value =>
                     match kv.2 with VInst nested => P nested | _ => True end) dk ->
           P (Inst mro data dk md dl)).

Fixpoint instance_dict_ind (i : instance) : P i :=
  match i with
  | Inst mro data dk md dl =>
      step mro data dk md dl
        ((fix go (l : list (string * value))
            : Forall (fun kv : string * value =>
                        match kv.2 with VInst nested => P nested | _ => True end) l :=
            match l with
            | [] => @List.Forall_nil _ _
            | (key, v) :: rest =>
                @List.Forall_cons _ _ (key, v) rest
                  (match v return match v with VInst nested => P nested | _ => True end with
                   | VInst nested => instance_dict_ind nested
                   | _ => I
                   end)
                  (go rest)
            end) dk)
  end.
End instance_dict_ind.

(** ** Descriptors from type hints *)











(** * Properties *)

(** ** Mappings *)

Section dict_facts.
Context {A : Type}.
Implicit Types (d : list (string * A)) (k : string).

Lemma dict_get_set_eq k (v : A) d : dict_get k (dict_set k v d) = Some v.
Proof.
  induction d as [|[k' v'] d IH]; simpl.
  - by rewrite String.eqb_refl.
  - destruct (String.eqb k k') eqn:E; simpl; rewrite ?String.eqb_refl, ?E; done.
Qed.

Lemma dict_get_set_ne k k' (v : A) d :
  k <> k' -> dict_get k' (dict_set k v d) = dict_get k' d.
Proof.
  intros Hne. induction d as [|[k0 v0] d IH]; simpl.
  - destruct (String.eqb k' k) eqn:E; [|done].
    apply String.eqb_eq in E. congruence.
  - destruct (String.eqb k k0) eqn:E; simpl.
    + apply String.eqb_eq in E. subst k0.
      destruct (String.eqb k' k) eqn:E'; [|done].
      apply String.eqb_eq in E'. congruence.
    + by rewrite IH.
Qed.

Lemma dict_get_None k d : dict_get k d = None <-> k ∉ d.*1.
Proof.
  induction d as [|[k' v'] d IH]; simpl.
  - split; [intros _; apply not_elem_of_nil | done].
  - destruct (String.eqb k k') eqn:E.
    + apply String.eqb_eq in E. subst. split; [done|].
      intros []. apply list_elem_of_here.
    + apply String.eqb_neq in E. rewrite IH. rewrite not_elem_of_cons. tauto.
Qed.

Lemma dict_get_pop_eq k d : dict_wf d -> dict_get k (dict_pop k d) = None.
Proof.
  unfold dict_wf. induction d as [|[k0 v0] d IH]; simpl; [done|].
  intros Hnd. apply NoDup_cons in Hnd as [Hk0 Hnd].
  destruct (String.eqb k k0) eqn:E; simpl.
  - apply String.eqb_eq in E. subst. by apply dict_get_None.
  - rewrite E. by apply IH.
Qed.

Lemma dict_get_pop_ne k k' d : k <> k' -> dict_get k' (dict_pop k d) = dict_get k' d.
Proof.
  intros Hne. induction d as [|[k0 v0] d IH]; simpl; [done|].
  destruct (String.eqb k k0) eqn:E; simpl.
  - apply String.eqb_eq in E. subst k0.
    destruct (String.eqb k' k) eqn:E'; [|done].
    apply String.eqb_eq in E'. congruence.
  - by rewrite IH.
Qed.

Lemma dict_get_Some k (v : A) d : dict_get k d = Some v -> (k, v) ∈ d.
Proof.
  induction d as [|[k' v'] d IH]; simpl; [done|].
  destruct (String.eqb k k') eqn:E.
  - apply String.eqb_eq in E. intros [= ->]. subst. apply list_elem_of_here.
  - intros H. apply list_elem_of_further. by apply IH.
Qed.

Lemma dict_mem_true k d : dict_mem k d = true <-> k ∈ d.*1.
Proof.
  unfold dict_mem. destruct (dict_get k d) eqn:E.
  - split; [intros _|done].
    destruct (decide (k ∈ d.*1)) as [|Hn]; [done|].
    apply dict_get_None in Hn. congruence.
  - apply dict_get_None in E. split; [done|tauto].
Qed.

Lemma dict_mem_false k d : dict_mem k d = false <-> k ∉ d.*1.
Proof.
  rewrite <- dict_mem_true. destruct (dict_mem k d); split; congruence.
Qed.
End dict_facts.

Lemma str_mem_true k (l : list string) : str_mem k l = true <-> k ∈ l.
Proof.
  unfold str_mem. rewrite existsb_exists. split.
  - intros (x & Hx & E). apply String.eqb_eq in E. subst. by apply list_elem_of_In.
  - intros H. exists k. split; [by apply list_elem_of_In | apply String.eqb_refl].
Qed.

(** ** Round trip through an alias (C1) *)

(** C1 (the code departs from the claim).  The class [Place] declares one
    string field [city], required, with the external name [c].  The input
    [{'city': 'NYC'}] is well formed: the converted value passes the field's
    own [validate], and [convert] stores it under [c].  [validate] then reads
    [obj.get('city')], finds nothing, and reports the required field as
    missing, so [validate(convert(input))] raises and [Place(city='NYC')]
    cannot be built. *)
Theorem roundtrip_breaks_on_required_alias :
  let input := VMap PlainDict false [("city", VStr "NYC")] in
  let output := VMap AttrDict false [("c", VStr "NYC")] in
  ModelType_call Place_decl = Ok Place /\
  (exists f, dict_get "city" (model_fields Place) = Some f /\
             field_name f = "c" /\
             convert f (VStr "NYC") = (Ok (VStr "NYC"), []) /\
             validate f (VStr "NYC") = (Ok tt, [])) /\
  convert (root Place) input = (Ok output, []) /\
  validate (root Place) output = (Err (ValidationError (FieldMissing "c")), []) /\
  _clean Place input false false = (Err (ValidationError (FieldMissing "c")), []) /\
  new Place false false [("city", VStr "NYC")]
    = (Err (ValidationError (FieldMissing "c")), []).
Proof.
  cbv zeta. split; [reflexivity|]. split; [|repeat split; reflexivity].
  eexists. repeat split; reflexivity.
Qed.

(** ** Clearing the dirty sets (C2) *)

Lemma truthy_after_clear (md : option (gset string)) :
  truthy (if truthy md then set_clear md else md) = false.
Proof.
  destruct md as [s|]; simpl; [|done].
  destruct (bool_decide (s = ∅)) eqn:E; simpl.
  - by rewrite E.
  - by rewrite bool_decide_eq_true_2.
Qed.

(** Whatever the instance, [_clear_marked_fields] returns with
    [_deleted_fields] as it found it. *)
Lemma clear_keeps_deleted (i : instance) :
  inst_deleted (_clear_marked_fields i) = inst_deleted i.
Proof. destruct i as [mro data dk md dl]. simpl. by rewrite truthy_after_clear. Qed.

Lemma clear_empties_modified (i : instance) :
  marked (inst_modified (_clear_marked_fields i)) = ∅.
Proof.
  destruct i as [mro data dk [s|] dl]; simpl; [|done].
  destruct (bool_decide (s = ∅)) eqn:E; simpl; [|done].
  by apply bool_decide_eq_true_1 in E.
Qed.

(** C2 (the code departs from the claim).  A [User] is built from stored
    data, its [name] is written and its [address] deleted, and the dirty sets
    are cleared: [_modified_fields] is empty, but [_deleted_fields] still
    holds [address], because the test that guards
    [self._deleted_fields.clear()] reads [self._modified_fields], which is
    empty by then.  The same happens one level down: with [user.address]
    materialized and [del user.address.city] run on it, clearing [user]
    leaves [city] in the deleted set of the nested [Address]. *)
Theorem clear_leaves_deleted_names :
  let address := VMap AttrDict false [("city", VStr "NYC")] in
  let user := from_data User (VMap AttrDict false [("name", VStr "Ann"); ("address", address)]) in
  (let user := (__setattr__ User user "name" (VStr "Bob")).2 in
   let user := (__delattr__ User user "address").2 in
   inst_modified user = Some {["name"]} /\
   inst_deleted user = Some {["address"]} /\
   inst_modified (_clear_marked_fields user) = Some ∅ /\
   inst_deleted (_clear_marked_fields user) = Some {["address"]}) /\
  (let nested := (__delattr__ Address (from_data Address address) "city").2 in
   let user := dict_store "address" (VInst nested) user in
   inst_deleted nested = Some {["city"]} /\
   dict_get "address" (inst_dict (_clear_marked_fields user))
     = Some (VInst (_clear_marked_fields nested)) /\
   inst_deleted (_clear_marked_fields nested) = Some {["city"]}).
Proof. vm_compute. repeat split; reflexivity. Qed.

(** ** Reading an attribute with no entry or a null entry (C9) *)

(** C9.  [Field.__get__] on an instance whose backing map has no entry under
    the field's name raises the attribute error and returns neither null nor
    the default; on an entry that holds null it returns null.  In both cases
    the instance is left as it was, whatever its [__dict__] (where the
    materialized values live) contains, and nothing is logged. *)
Theorem read_without_entry_or_null (f : field) (mro : list string)
    (k : map_kind) (skip : bool) (items dk : list (string * value))
    (md dl : option (gset string)) :
  let i := Inst mro (VMap k skip items) dk md dl in
  (dict_get (field_name f) items = None ->
   Field_get f i = ((Err (AttributeError_no_value (field_name f)), []), i)) /\
  (dict_get (field_name f) items = Some VNone ->
   Field_get f i = ((Ok VNone, []), i)).
Proof. simpl. split; intros ->; reflexivity. Qed.

(** An [Address] read back with a projection that left [city] out, and a
    [User] whose [address] is null while a stale [Address] object sits in its
    [__dict__]. *)
Lemma read_without_entry_or_null_witness :
  let city := Leaf (StringField None None)
                (Base "city" false (DefaultValue (VStr "NYC")) None None) in
  let address := EmbeddedField (plain "address") Address in
  let stale := [("address", VInst (from_data Address (VMap AttrDict false [])))] in
  Field_get city (Inst (model_mro Address) (VMap AttrDict false []) [] None None)
    = ((Err (AttributeError_no_value "city"), []),
       Inst (model_mro Address) (VMap AttrDict false []) [] None None) /\
  Field_get address
      (Inst (model_mro User) (VMap AttrDict false [("address", VNone)]) stale None None)
    = ((Ok VNone, []),
       Inst (model_mro User) (VMap AttrDict false [("address", VNone)]) stale None None).
Proof.
  cbv zeta. split.
  - apply (read_without_entry_or_null
             (Leaf (StringField None None)
                (Base "city" false (DefaultValue (VStr "NYC")) None None))
             (model_mro Address) AttrDict false [] [] None None).
    reflexivity.
  - apply (read_without_entry_or_null
             (EmbeddedField (plain "address") Address)
             (model_mro User) AttrDict false [("address", VNone)]
             [("address", VInst (from_data Address (VMap AttrDict false [])))]
             None None).
    reflexivity.
Defined.

(** ** Dirty tracking (C4) *)












(** ** Converting a trusted instance (C3) *)

(** C3, the claim as stated fails: an [Address] built by [from_data] over a
    builtin dict is an instance of the target type, and converting it raises
    AttributeError at [dk._skip_validate = True] instead of returning the
    backing map. *)
Lemma trusted_instance_over_builtin_dict :
  let obj := from_data Address (VMap PlainDict false [("city", VStr "NYC")]) in
  isinstance_cls obj (model_cls Address) = true /\
  convert (EmbeddedField (plain "address") Address) (VInst obj)
    = (Err (AttributeError_no_attribute "_skip_validate"), []).
Proof. split; reflexivity. Qed.

(** C3 as amended.  For an instance of the target type whose backing map
    accepts attributes (an instance of a [dict_class] such as OrderedDict,
    which is what [convert] builds), [EmbeddedField.convert] returns the
    backing map with its entries unchanged and the marker set, and
    [EmbeddedField.validate] on that result returns at once; the empty log
    says that no converter and no validator was called, on either call. *)
Theorem trusted_instance_is_returned_marked (b : base) (m : model)
    (i : instance) (skip : bool) (items : list (string * value)) :
  isinstance_cls i (model_cls m) = true ->
  to_dict i = VMap AttrDict skip items ->
  convert (EmbeddedField b m) (VInst i) = (Ok (VMap AttrDict true items), []) /\
  validate (EmbeddedField b m) (VMap AttrDict true items) = (Ok tt, []).
Proof.
  intros Hcls Hdata. split; [|reflexivity].
  simpl. rewrite Hcls. by rewrite Hdata.
Qed.

Lemma trusted_instance_is_returned_marked_witness :
  let obj := from_data Address (VMap AttrDict false [("city", VStr "NYC")]) in
  let field := EmbeddedField (plain "address") Address in
  isinstance_cls obj (model_cls Address) = true /\
  to_dict obj = VMap AttrDict false [("city", VStr "NYC")] /\
  convert field (VInst obj) = (Ok (VMap AttrDict true [("city", VStr "NYC")]), []) /\
  validate field (VMap AttrDict true [("city", VStr "NYC")]) = (Ok tt, []).
Proof.
  cbv zeta. split; [reflexivity|]. split; [reflexivity|].
  apply (trusted_instance_is_returned_marked (plain "address") Address
           (from_data Address (VMap AttrDict false [("city", VStr "NYC")]))
           false [("city", VStr "NYC")]); reflexivity.
Defined.

(** ** The two loops of EmbeddedField.convert *)

Lemma bind_Ok {A B} (m : M A) (k : A -> M B) (b : B) (l : list event) :
  bind m k = (Ok b, l) ->
  exists a l1 l2, m = (Ok a, l1) /\ k a = (Ok b, l2) /\ l = l1 ++ l2.
Proof.
  unfold bind. destruct m as [[a|e] l1]; [|discriminate].
  destruct (k a) as [r l2] eqn:E. intros [= -> <-]. eauto 6.
Qed.

Section convert_loops.
Context (conv : field -> value -> M value) (retain_none : bool)
        (obj : list (string * value)).

Lemma convert_fields_step name fld rest rv0 rv l :
  convert_fields conv retain_none obj ((name, fld) :: rest) rv0 = (Ok rv, l) ->
  exists v l1 l2 rv1,
    conv fld (obj_get name obj) = (Ok v, l1) /\
    convert_fields conv retain_none obj rest rv1 = (Ok rv, l2) /\
    l = l1 ++ l2 /\
    (forall key, key <> field_name fld -> dict_get key rv1 = dict_get key rv0) /\
    dict_get (field_name fld) rv1
    = stored retain_none v (dict_get (field_name fld) rv0).
Proof.
  simpl. intros H. apply bind_Ok in H as (v & l1 & l2 & Hv & Hrest & ->).
  eexists v, l1, l2, _. split; [done|]. split; [exact Hrest|]. split; [done|].
  unfold stored. destruct (is_none v); [destruct retain_none|]; split;
    intros; rewrite ?dict_get_set_eq, ?dict_get_set_ne by done; done.
Qed.

Lemma convert_fields_other fields rv0 rv l key :
  convert_fields conv retain_none obj fields rv0 = (Ok rv, l) ->
  key ∉ external_names fields ->
  dict_get key rv = dict_get key rv0.
Proof.
  revert rv0 l. induction fields as [|[name fld] rest IH]; intros rv0 l.
  - simpl. by intros [= ->].
  - intros H Hkey. simpl in Hkey. apply not_elem_of_cons in Hkey as [Hne Hkey].
    apply convert_fields_step in H as (v & l1 & l2 & rv1 & _ & Hrest & _ & Hoth & _).
    rewrite (IH _ _ Hrest Hkey). by apply Hoth.
Qed.

Lemma convert_fields_stored fields rv0 rv l a f :
  convert_fields conv retain_none obj fields rv0 = (Ok rv, l) ->
  NoDup (external_names fields) ->
  (a, f) ∈ fields ->
  exists v lv,
    conv f (obj_get a obj) = (Ok v, lv) /\
    dict_get (field_name f) rv
    = stored retain_none v (dict_get (field_name f) rv0).
Proof.
  revert rv0 l. induction fields as [|[name fld] rest IH]; intros rv0 l H Hnd Hin.
  - by apply elem_of_nil in Hin.
  - simpl in Hnd. apply NoDup_cons in Hnd as [Hhead Hnd].
    apply convert_fields_step in H
      as (v & l1 & l2 & rv1 & Hv & Hrest & _ & Hoth & Hst).
    apply elem_of_cons in Hin as [[= -> ->]|Hin].
    + exists v, l1. split; [done|].
      by rewrite (convert_fields_other _ _ _ _ _ Hrest Hhead).
    + destruct (IH _ _ Hrest Hnd Hin) as (v' & lv & Hv' & Hget).
      exists v', lv. split; [done|]. rewrite Hget. f_equal. apply Hoth.
      intros E. apply Hhead. rewrite <- E.
      apply (list_elem_of_fmap_2 (fun nf : string * field => field_name nf.2) _ _ Hin).
  Qed.

Lemma convert_fields_returns fields rv0 :
  Forall (fun nf => exists v l, conv nf.2 (obj_get nf.1 obj) = (Ok v, l)) fields ->
  exists rv l, convert_fields conv retain_none obj fields rv0 = (Ok rv, l).
Proof.
  revert rv0. induction fields as [|[name fld] rest IH]; intros rv0 Hall.
  - by exists rv0, [].
  - apply Forall_cons in Hall as [(v & l & Hv) Hall]. simpl in *. rewrite Hv. simpl.
    edestruct IH as (rv & l' & ->); [done|]. eauto.
Qed.
End convert_loops.

Lemma copy_undeclared_get fields items rv key :
  dict_wf items ->
  dict_get key (copy_undeclared fields items rv) =
    match dict_get key items with
    | Some v => if dict_mem key fields then dict_get key rv else Some v
    | None => dict_get key rv
    end.
Proof.
  unfold dict_wf. revert rv.
  induction items as [|[k0 v0] rest IH]; intros rv Hnd; simpl; [done|].
  simpl in Hnd. apply NoDup_cons in Hnd as [Hk0 Hnd]. rewrite (IH _ Hnd).
  destruct (String.eqb key k0) eqn:E.
  - apply String.eqb_eq in E. subst k0.
    apply dict_get_None in Hk0. rewrite Hk0.
    destruct (dict_mem key fields); [done|]. apply dict_get_set_eq.
  - apply String.eqb_neq in E.
    assert (dict_get key (if dict_mem k0 fields then rv else dict_set k0 v0 rv)
            = dict_get key rv) as ->; [|done].
    destruct (dict_mem k0 fields); [done|]. by apply dict_get_set_ne.
Qed.

(** [EmbeddedField.convert] on a value that is no instance of the model and
    that the field's own default and converter leave as the mapping [obj]. *)
Lemma EmbeddedField_convert_map b m v0 k skip obj l0 out l :
  instance_of v0 m = None ->
  Field_convert b v0 = (Ok (VMap k skip obj), l0) ->
  convert (EmbeddedField b m) v0 = (Ok out, l) ->
  exists rv l1,
    convert_fields convert (model_retain_none m) obj (model_fields m) [] = (Ok rv, l1) /\
    out = VMap (model_dict_class m) false (copy_undeclared (model_fields m) obj rv) /\
    l = l0 ++ l1.
Proof.
  intros Hinst Hbase. simpl. rewrite Hinst, Hbase. simpl.
  destruct m as [cls bases fields retain warn dc]. simpl.
  destruct (convert_fields convert retain obj fields []) as [[rv|e] l1]; simpl;
    [|discriminate].
  intros [= <- <-]. exists rv, l1. by rewrite app_nil_r.
Qed.

Lemma root_Field_convert k skip obj :
  Field_convert (plain "") (VMap k skip obj) = (Ok (VMap k skip obj), []).
Proof. reflexivity. Qed.

(** ** The alias defect in general (C1) *)

Lemma validate_None f :
  validate f VNone =
    if required (field_base f)
    then (Err (ValidationError (FieldMissing (field_name f))), [])
    else (Ok tt, []).
Proof.
  destruct f as [k b|b elem|b m]; unfold field_name; simpl;
    unfold Leaf_validate, Field_validate; simpl; by destruct (required b).
Qed.

Lemma validate_fields_fails valid obj fields a f e l :
  (a, f) ∈ fields ->
  valid f (obj_get a obj) = (Err e, l) ->
  exists e' l', validate_fields valid obj fields = (Err e', l').
Proof.
  intros Hin Hf. induction fields as [|[name fld] rest IH]; simpl.
  - by apply elem_of_nil in Hin.
  - apply elem_of_cons in Hin as [[= <- <-]|Hin].
    + rewrite Hf. simpl. eauto.
    + destruct (valid fld (obj_get name obj)) as [[[]|e0] l0]; simpl; [|eauto].
      destruct (IH Hin) as (e' & l' & ->). eauto.
Qed.

(** Whatever the input mapping: when a schema requires a field whose
    external name differs from its attribute name, and no field has that
    attribute name as external name, every map that [convert] returns is
    rejected by [validate]. *)
Lemma required_alias_never_validates cls k skip obj out l a f :
  dict_get a (model_fields cls) = Some f ->
  required (field_base f) = true ->
  a ∉ external_names (model_fields cls) ->
  dict_wf obj ->
  convert (root cls) (VMap k skip obj) = (Ok out, l) ->
  exists e l', validate (root cls) out = (Err e, l').
Proof.
  intros Hf Hreq Hfresh Hwf Hconv.
  destruct (EmbeddedField_convert_map (plain "") cls (VMap k skip obj) k skip obj
              [] out l eq_refl (root_Field_convert k skip obj) Hconv)
    as (rv & l1 & Hloop & -> & _).
  assert (obj_get a (copy_undeclared (model_fields cls) obj rv) = VNone) as Hgone.
  { unfold obj_get. rewrite copy_undeclared_get by done.
    assert (dict_get a rv = None) as Hrv.
    { by rewrite (convert_fields_other _ _ _ _ _ _ _ _ Hloop Hfresh). }
    assert (dict_mem a (model_fields cls) = true) as Hmem.
    { unfold dict_mem. by rewrite Hf. }
    rewrite Hmem, Hrv. by destruct (dict_get a obj). }
  destruct (validate_fields_fails validate
              (copy_undeclared (model_fields cls) obj rv) (model_fields cls) a f
              (ValidationError (FieldMissing (field_name f))) [])
    as (e & l' & Hfail).
  { by apply dict_get_Some. }
  { by rewrite Hgone, validate_None, Hreq. }
  destruct cls as [c bases fields retain warn dc]. simpl in *.
  unfold Field_validate. simpl. rewrite Hfail. simpl. eauto.
Qed.

(** The same defect lets a value of the wrong type through: with the alias
    but without [required], the integer 5 is stored in the string field and
    [validate] never looks at it. *)
Lemma aliased_field_escapes_validation :
  let Spot :=
    Model "Spot" embedded_bases
      [("city", Leaf (StringField None None) (plain "c"))] true false AttrDict in
  validate (Leaf (StringField None None) (plain "c")) (VInt 5)
    = (Err (ValidationError WrongType), []) /\
  _clean Spot (VMap PlainDict false [("city", VInt 5)]) false false
    = (Ok (VMap AttrDict false [("c", VInt 5)]), []).
Proof. split; reflexivity. Qed.

(** ** Keys the schema does not declare (C7) *)

Lemma undeclared_key_copied b m v0 k skip obj l0 out l key v :
  instance_of v0 m = None ->
  Field_convert b v0 = (Ok (VMap k skip obj), l0) ->
  dict_wf obj ->
  dict_get key obj = Some v ->
  dict_mem key (model_fields m) = false ->
  convert (EmbeddedField b m) v0 = (Ok out, l) ->
  exists rv, out = VMap (model_dict_class m) false rv /\ dict_get key rv = Some v.
Proof.
  intros Hinst Hbase Hwf Hget Hmem Hconv.
  destruct (EmbeddedField_convert_map _ _ _ _ _ _ _ _ _ Hinst Hbase Hconv)
    as (rv & l1 & _ & -> & _).
  eexists. split; [done|].
  by rewrite copy_undeclared_get, Hget, Hmem.
Qed.

(** C7.  [input] is a mapping with the entry [key: v], and the schema [cls]
    declares no attribute [key].  Whenever converting [input] against [cls]
    (as [_clean] does, through the root descriptor) returns, the output map
    holds [key: v]; it returns as soon as the conversion of every declared
    field returns.  The same holds for a nested [EmbeddedField], for the
    mapping that its own default and converter hand to the copying loop. *)
Theorem unknown_keys_pass_through (cls : model) (k : map_kind) (skip : bool)
    (obj : list (string * value)) (key : string) (v : value) :
  dict_wf obj ->
  dict_get key obj = Some v ->
  key ∉ field_order cls ->
  let input := VMap k skip obj in
  (forall out l,
     convert (root cls) input = (Ok out, l) ->
     exists rv, out = VMap (model_dict_class cls) false rv /\
                dict_get key rv = Some v) /\
  (Forall (fun nf => exists v' l', convert nf.2 (obj_get nf.1 obj) = (Ok v', l'))
          (model_fields cls) ->
   exists out l, convert (root cls) input = (Ok out, l)) /\
  (forall b v0 l0 out l,
     instance_of v0 cls = None ->
     Field_convert b v0 = (Ok input, l0) ->
     convert (EmbeddedField b cls) v0 = (Ok out, l) ->
     exists rv, out = VMap (model_dict_class cls) false rv /\
                dict_get key rv = Some v).
Proof.
  intros Hwf Hget Hmem. apply dict_mem_false in Hmem. cbv zeta. split; [|split].
  - intros out l. by apply undeclared_key_copied with (k := k) (skip := skip) (obj := obj) (l0 := []).
  - intros Hall. simpl.
    destruct cls as [c bases fields retain warn dc]. simpl in *.
    destruct (convert_fields_returns convert retain obj fields [] Hall) as (rv & l & ->).
    simpl. eauto.
  - intros b v0 l0 out l Hinst Hbase. by apply undeclared_key_copied with (k := k) (skip := skip) (obj := obj) (l0 := l0).
Qed.

(** The example of the specification: [{'city': 'NYC', 'note': 'x'}]
    against [Address], which declares [city] only. *)
Lemma unknown_keys_pass_through_witness :
  let obj := [("city", VStr "NYC"); ("note", VStr "x")] in
  dict_wf obj /\
  dict_get "note" obj = Some (VStr "x") /\
  ("note" ∉ field_order Address) /\
  convert (root Address) (VMap PlainDict false obj)
    = (Ok (VMap AttrDict false [("city", VStr "NYC"); ("note", VStr "x")]), []) /\
  exists rv, VMap AttrDict false [("city", VStr "NYC"); ("note", VStr "x")]
               = VMap (model_dict_class Address) false rv /\
             dict_get "note" rv = Some (VStr "x").
Proof.
  cbv zeta.
  assert (dict_wf [("city", VStr "NYC"); ("note", VStr "x")]) as Hwf.
  { unfold dict_wf. simpl. repeat constructor; set_solver. }
  assert ("note" ∉ field_order Address) as Hundeclared.
  { by apply dict_mem_false. }
  split; [exact Hwf|]. split; [reflexivity|]. split; [exact Hundeclared|].
  split; [reflexivity|].
  destruct (unknown_keys_pass_through Address PlainDict false
              [("city", VStr "NYC"); ("note", VStr "x")] "note" (VStr "x")
              Hwf eq_refl Hundeclared) as [Hout _].
  apply (Hout _ []). reflexivity.
Defined.

(** ** Null writes and retain_none (C5) *)

(** C5, the claim as stated fails: [Profile] retains nulls and gives [city]
    the default ['NYC']; assigning null to [city] stores ['NYC'], not a null
    entry. *)
Lemma null_write_takes_default :
  let obj := from_data Profile (VMap AttrDict false [("city", VStr "Boston")]) in
  model_retain_none Profile = true /\
  (__setattr__ Profile obj "city" VNone).1 = (Ok tt, []) /\
  inst_data (__setattr__ Profile obj "city" VNone).2
    = VMap AttrDict false [("city", VStr "NYC")].
Proof. repeat split; reflexivity. Qed.

Lemma Field_set_null retain f mro k skip items dk md dl v l :
  required (field_base f) = false ->
  convert f v = (Ok VNone, l) ->
  Field_set retain f (Inst mro (VMap k skip items) dk md dl) v =
    ((Ok tt, l),
     Inst mro
       (VMap k skip (if retain then dict_set (field_name f) VNone items
                     else dict_pop (field_name f) items))
       (dict_pop (field_name f) dk) md dl).
Proof.
  intros Hreq Hconv. unfold Field_set. rewrite Hconv. simpl.
  rewrite validate_None, Hreq. simpl. rewrite app_nil_r.
  by destruct retain.
Qed.

Lemma marker_shape cls name v mro data dk md dl :
  exists md' dl',
    (if str_mem name (field_order cls) then
       if negb (model_retain_none cls) && is_none v
       then mark_deleted name (Inst mro data dk md dl)
       else mark_modified name (Inst mro data dk md dl)
     else Inst mro data dk md dl) = Inst mro data dk md' dl'.
Proof. repeat case_match; simpl; eauto. Qed.

Lemma null_write_on_instance cls i a f v k skip items l :
  dict_get a (model_fields cls) = Some f ->
  inst_data i = VMap k skip items ->
  dict_wf items ->
  required (field_base f) = false ->
  convert f v = (Ok VNone, l) ->
  exists items',
    (__setattr__ cls i a v).1 = (Ok tt, l) /\
    inst_data (__setattr__ cls i a v).2 = VMap k skip items' /\
    dict_get (field_name f) items'
      = (if model_retain_none cls then Some VNone else None) /\
    (forall key, key <> field_name f -> dict_get key items' = dict_get key items).
Proof.
  intros Hf Hdata Hwf Hreq Hconv. destruct i as [mro data dk md dl].
  simpl in Hdata. subst data. unfold __setattr__. rewrite Hf.
  destruct (marker_shape cls a v mro (VMap k skip items) dk md dl) as (md' & dl' & ->).
  rewrite (Field_set_null _ _ _ _ _ _ _ _ _ _ _ Hreq Hconv). simpl.
  eexists. split; [done|]. split; [done|].
  destruct (model_retain_none cls); split; intros.
  - apply dict_get_set_eq.
  - by apply dict_get_set_ne.
  - by apply dict_get_pop_eq.
  - by apply dict_get_pop_ne.
Qed.

Lemma null_field_in_conversion cls k skip obj out l a f l0 :
  convert (root cls) (VMap k skip obj) = (Ok out, l) ->
  dict_wf obj ->
  NoDup (external_names (model_fields cls)) ->
  (a, f) ∈ model_fields cls ->
  convert f (obj_get a obj) = (Ok VNone, l0) ->
  (dict_mem (field_name f) obj = true ->
   dict_mem (field_name f) (model_fields cls) = true) ->
  exists rv,
    out = VMap (model_dict_class cls) false rv /\
    dict_get (field_name f) rv
      = (if model_retain_none cls then Some VNone else None).
Proof.
  intros Hconv Hwf Hnd Hin Hnull Hshadow.
  destruct (EmbeddedField_convert_map (plain "") cls (VMap k skip obj) k skip obj
              [] out l eq_refl (root_Field_convert k skip obj) Hconv)
    as (rv & l1 & Hloop & -> & _).
  eexists. split; [done|].
  destruct (convert_fields_stored _ _ _ _ _ _ _ _ _ Hloop Hnd Hin)
    as (v & lv & Hv & Hget).
  rewrite Hnull in Hv. injection Hv as <- <-.
  rewrite copy_undeclared_get by done.
  assert (dict_get (field_name f) rv
          = if model_retain_none cls then Some VNone else None) as Hrv.
  { rewrite Hget. unfold stored. simpl. by destruct (model_retain_none cls). }
  destruct (dict_get (field_name f) obj) eqn:E; [|done].
  rewrite Hshadow; [done|]. unfold dict_mem. by rewrite E.
Qed.

(** C5 as amended.  A write to a declared attribute whose field is not
    required, of a value whose conversion is null (null itself when the field
    has no default), returns and leaves under the field's external name an
    explicit null entry when [retain_none] is true and no entry when it is
    false; the other entries are untouched.  In the conversion of a mapping
    against a schema with pairwise distinct external names, a declared field
    whose converted value is null gets a null entry under its external name
    when [retain_none] is true and no entry when it is false (provided the
    input has no undeclared key equal to that external name, which the second
    loop would copy). *)
Theorem retain_none_decides_null_entry (cls : model) (a : string) (f : field) :
  dict_get a (model_fields cls) = Some f ->
  required (field_base f) = false ->
  (forall i v k skip items l,
     inst_data i = VMap k skip items ->
     dict_wf items ->
     convert f v = (Ok VNone, l) ->
     exists items',
       (__setattr__ cls i a v).1 = (Ok tt, l) /\
       inst_data (__setattr__ cls i a v).2 = VMap k skip items' /\
       dict_get (field_name f) items'
         = (if model_retain_none cls then Some VNone else None) /\
       (forall key, key <> field_name f -> dict_get key items' = dict_get key items)) /\
  (forall k skip obj out l l0,
     convert (root cls) (VMap k skip obj) = (Ok out, l) ->
     dict_wf obj ->
     NoDup (external_names (model_fields cls)) ->
     convert f (obj_get a obj) = (Ok VNone, l0) ->
     (dict_mem (field_name f) obj = true ->
      dict_mem (field_name f) (model_fields cls) = true) ->
     exists rv,
       out = VMap (model_dict_class cls) false rv /\
       dict_get (field_name f) rv
         = (if model_retain_none cls then Some VNone else None)).
Proof.
  intros Hf Hreq. split.
  - intros. by eapply null_write_on_instance.
  - intros. eapply null_field_in_conversion; [done..| |done|done].
    by apply dict_get_Some.
Qed.

(** A null written to [city], and an input without [city] converted,
    against [Address], which retains nulls, and [Venue], which does not. *)
Lemma retain_none_decides_null_entry_witness :
  let city := Leaf (StringField None None) (plain "city") in
  let stored := VMap AttrDict false [("city", VStr "NYC")] in
  dict_get "city" (model_fields Address) = Some city /\
  dict_get "city" (model_fields Venue) = Some city /\
  required (field_base city) = false /\
  (exists items',
     inst_data (__setattr__ Address (from_data Address stored) "city" VNone).2
       = VMap AttrDict false items' /\
     dict_get "city" items' = Some VNone) /\
  (exists items',
     inst_data (__setattr__ Venue (from_data Venue stored) "city" VNone).2
       = VMap AttrDict false items' /\
     dict_get "city" items' = None) /\
  (exists rv,
     VMap AttrDict false [("city", VNone)] = VMap (model_dict_class Address) false rv /\
     dict_get "city" rv = Some VNone) /\
  (exists rv,
     VMap AttrDict false [] = VMap (model_dict_class Venue) false rv /\
     dict_get "city" rv = None).
Proof.
  cbv zeta.
  assert (dict_wf [("city", VStr "NYC")]) as Hwf.
  { unfold dict_wf. simpl. repeat constructor; set_solver. }
  assert (dict_wf (@nil (string * value))) as Hwf0 by constructor.
  assert (NoDup ["city"]) as Hnames.
  { repeat constructor; set_solver. }
  destruct (retain_none_decides_null_entry Address "city" _ eq_refl eq_refl)
    as [Hwrite Hconv].
  destruct (retain_none_decides_null_entry Venue "city" _ eq_refl eq_refl)
    as [Hwrite' Hconv'].
  split; [reflexivity|]. split; [reflexivity|]. split; [reflexivity|].
  split; [|split; [|split]].
  - destruct (Hwrite (from_data Address (VMap AttrDict false [("city", VStr "NYC")]))
                VNone AttrDict false [("city", VStr "NYC")] [] eq_refl Hwf eq_refl)
      as (items' & _ & Hdata & Hget & _).
    exists items'. split; [exact Hdata | exact Hget].
  - destruct (Hwrite' (from_data Venue (VMap AttrDict false [("city", VStr "NYC")]))
                VNone AttrDict false [("city", VStr "NYC")] [] eq_refl Hwf eq_refl)
      as (items' & _ & Hdata & Hget & _).
    exists items'. split; [exact Hdata | exact Hget].
  - apply (Hconv PlainDict false [] _ [] [] eq_refl Hwf0 Hnames eq_refl).
    discriminate.
  - apply (Hconv' PlainDict false [] _ [] [] eq_refl Hwf0 Hnames eq_refl).
    discriminate.
Defined.

(** ** Arrays: innermost kind, materialization, conversion (C6, C10) *)





Lemma Field_convert_no_converter b v :
  converter b = None ->
  Field_convert b v
    = (Ok (if is_none v then default_value (default b) else v), []).
Proof. intros H. unfold Field_convert. by rewrite H. Qed.





Lemma collect_elementwise {A B} (f : A -> M B) xs ys l :
  collect f xs = (Ok ys, l) ->
  length ys = length xs /\
  forall (i : nat) x, xs !! i = Some x ->
    exists y lx, ys !! i = Some y /\ f x = (Ok y, lx).
Proof.
  revert ys l. induction xs as [|x xs IH]; intros ys l; simpl.
  - intros [= <- _]. split; [done|]. intros i x Hi. by destruct i.
  - intros H. apply bind_Ok in H as (y & l1 & l2 & Hy & H & ->).
    apply bind_Ok in H as (ys' & l3 & l4 & Hys & [= <- _] & ->).
    destruct (IH _ _ Hys) as [Hlen Hnth]. split; [simpl; by rewrite Hlen|].
    intros [|i] x' Hi; simpl in *.
    + injection Hi as <-. eauto.
    + by apply Hnth.
Qed.

Lemma collect_returns {A B} (f : A -> M B) xs :
  Forall (fun x => exists y lx, f x = (Ok y, lx)) xs ->
  exists ys l, collect f xs = (Ok ys, l).
Proof.
  induction 1 as [|x xs (y & lx & Hy) _ (ys & l & IH)]; simpl.
  - by exists [], [].
  - rewrite Hy, IH. simpl. eauto.
Qed.

Lemma bind_ret_l {A B} (a : A) (k : A -> M B) : bind (Ok a, []) k = k a.
Proof. unfold bind. by destruct (k a). Qed.

Lemma ArrayField_convert_eq b elem v :
  convert (ArrayField b elem) v =
    (values <- Field_convert b v ;;
     match values with
     | VNone => ret VNone
     | VList xs | VTuple xs =>
         converted <- collect (convert elem) xs ;; ret (VList converted)
     | _ => raise ValueError_not_list_like
     end).
Proof. reflexivity. Qed.

(** C10, the claim as stated fails: an array of strings whose own converter
    reverses its argument returns, for the list ['a', 'b'], a list whose
    first element is the conversion of the second input element. *)
Lemma array_converter_runs_before_elements :
  let elem := Leaf (StringField None None) (plain "") in
  let tags := ArrayField (Base "tags" false (DefaultValue VNone) (Some reversed) None) elem in
  convert elem (VStr "a") = (Ok (VStr "a"), []) /\
  convert tags (VList [VStr "a"; VStr "b"])
    = (Ok (VList [VStr "b"; VStr "a"]),
       [CallConverter "tags" (VList [VStr "a"; VStr "b"])]).
Proof. split; reflexivity. Qed.

(** C10 as amended.  On an array field that has no converter of its own,
    [convert] takes a list and a tuple alike: the outcome is that of
    converting the elements in order with the element descriptor; when it
    returns, it returns a list of the same length whose i-th element is the
    conversion of the i-th input element, and it returns as soon as every
    element converts.  On null, with a null default, it returns null and
    calls nothing, whatever the converter. *)
Theorem array_convert_elementwise (b : base) (elem : field) :
  (converter b = None ->
   forall xs input,
     input = VList xs \/ input = VTuple xs ->
     convert (ArrayField b elem) input
       = (converted <- collect (convert elem) xs ;; ret (VList converted)) /\
     (forall out l,
        convert (ArrayField b elem) input = (Ok out, l) ->
        exists ys,
          out = VList ys /\ length ys = length xs /\
          forall (i : nat) x, xs !! i = Some x ->
            exists y lx, ys !! i = Some y /\ convert elem x = (Ok y, lx)) /\
     (Forall (fun x => exists y lx, convert elem x = (Ok y, lx)) xs ->
      exists ys l, convert (ArrayField b elem) input = (Ok (VList ys), l))) /\
  (default_value (default b) = VNone ->
   convert (ArrayField b elem) VNone = (Ok VNone, [])).
Proof.
  split.
  - intros Hconv xs input Hinput.
    assert (convert (ArrayField b elem) input
            = (converted <- collect (convert elem) xs ;; ret (VList converted))) as E.
    { rewrite ArrayField_convert_eq, (Field_convert_no_converter _ _ Hconv).
      rewrite bind_ret_l. by destruct Hinput as [-> | ->]. }
    split; [exact E|]. rewrite E. split.
    + intros out l H. apply bind_Ok in H as (ys & l1 & l2 & Hys & [= <- _] & _).
      exists ys. split; [done|]. by eapply collect_elementwise.
    + intros Hall. destruct (collect_returns _ _ Hall) as (ys & l & ->).
      simpl. eauto.
  - intros Hdef. simpl. unfold Field_convert. simpl. rewrite Hdef.
    by destruct (converter b).
Qed.

Lemma array_convert_elementwise_witness :
  let elem := Leaf (StringField None None) (plain "") in
  converter (plain "tags") = None /\
  default_value (default (plain "tags")) = VNone /\
  convert (ArrayField (plain "tags") elem) (VTuple [VStr "a"; VStr "b"])
    = (Ok (VList [VStr "a"; VStr "b"]), []) /\
  convert (ArrayField (plain "tags") elem) VNone = (Ok VNone, []).
Proof.
  cbv zeta. split; [reflexivity|]. split; [reflexivity|].
  destruct (array_convert_elementwise (plain "tags")
              (Leaf (StringField None None) (plain ""))) as [Hseq Hnull].
  split.
  - destruct (Hseq eq_refl [VStr "a"; VStr "b"] (VTuple [VStr "a"; VStr "b"])
                (or_intror eq_refl)) as [-> _].
    reflexivity.
  - exact (Hnull eq_refl).
Defined.

(** ** Schema configuration naming an undeclared field (C8) *)

Lemma find_app {A} (p : A -> bool) l1 l2 :
  find p (l1 ++ l2) = match find p l1 with Some x => Some x | None => find p l2 end.
Proof. induction l1 as [|x l1 IH]; simpl; [done|]. by destruct (p x). Qed.

Lemma dict_update_mem k upd fields n :
  dict_mem n (dict_update k upd fields) = dict_mem n fields.
Proof.
  unfold dict_mem. induction fields as [|[k' f] rest IH]; simpl; [done|].
  destruct (String.eqb k k'); simpl; destruct (String.eqb n k'); done.
Qed.

Lemma find_undeclared_update k upd fields l :
  find (undeclared (dict_update k upd fields)) l = find (undeclared fields) l.
Proof.
  induction l as [|n l IH]; simpl; [done|].
  unfold undeclared at 1 3. by rewrite dict_update_mem, IH.
Qed.

Lemma apply_meta_outcome {A} (upd : A -> field -> field) entries fields :
  match apply_meta upd entries fields with
  | Err e =>
      exists n, e = ValueError_not_defined n /\
                find (undeclared fields) entries.*1 = Some n
  | Ok fields' =>
      find (undeclared fields) entries.*1 = None /\
      forall n, dict_mem n fields' = dict_mem n fields
  end.
Proof.
  revert fields. induction entries as [|[name x] rest IH]; intros fields; simpl.
  - done.
  - unfold ensure_field_exist, undeclared at 1 3.
    destruct (dict_mem name fields) eqn:E; simpl.
    + specialize (IH (dict_update name (upd x) fields)).
      rewrite find_undeclared_update in IH.
      destruct (apply_meta upd rest _) as [fields'|e]; [|done].
      destruct IH as [Hnone Hmem]. split; [done|].
      intros n. by rewrite Hmem, dict_update_mem.
    + eauto.
Qed.

Lemma find_undeclared_ext fields1 fields2 l :
  (forall n, dict_mem n fields1 = dict_mem n fields2) ->
  find (undeclared fields1) l = find (undeclared fields2) l.
Proof.
  intros H. induction l as [|n l IH]; simpl; [done|].
  unfold undeclared at 1 3. by rewrite H, IH.
Qed.

Lemma required_entries_keys (l : list string) : (map (fun n => (n, tt)) l).*1 = l.
Proof. induction l as [|n l IH]; [done|]. simpl. f_equal. exact IH. Qed.

(** [_process_meta] raises for the first reference, in processing order, to
    a name that is no key of [fields], and returns otherwise; the overrides
    neither add nor remove a key. *)
Lemma process_meta_outcome fields meta :
  match _process_meta fields meta with
  | Err e =>
      exists n, e = ValueError_not_defined n /\
                find (undeclared fields) (meta_references meta) = Some n
  | Ok fields' =>
      find (undeclared fields) (meta_references meta) = None /\
      forall n, dict_mem n fields' = dict_mem n fields
  end.
Proof.
  unfold _process_meta, meta_references. rewrite !find_app.
  pose proof (apply_meta_outcome set_name (aliases meta) fields) as H1.
  destruct (apply_meta set_name (aliases meta) fields) as [fields1|e]; simpl.
  2: { destruct H1 as (n & -> & ->). eauto. }
  destruct H1 as [-> M1].
  pose proof (apply_meta_outcome (fun _ : unit => set_required)
                (map (fun n => (n, tt)) (meta_required meta)) fields1) as H2.
  rewrite required_entries_keys, (find_undeclared_ext _ _ _ M1) in H2.
  destruct (apply_meta (fun _ : unit => set_required) _ fields1) as [fields2|e]; simpl.
  2: { destruct H2 as (n & -> & ->). eauto. }
  destruct H2 as [-> M2].
  assert (forall n, dict_mem n fields2 = dict_mem n fields) as M2'.
  { intros n. by rewrite M2, M1. }
  pose proof (apply_meta_outcome set_converter (converters meta) fields2) as H3.
  rewrite (find_undeclared_ext _ _ _ M2') in H3.
  destruct (apply_meta set_converter (converters meta) fields2) as [fields3|e]; simpl.
  2: { destruct H3 as (n & -> & ->). eauto. }
  destruct H3 as [-> M3].
  assert (forall n, dict_mem n fields3 = dict_mem n fields) as M3'.
  { intros n. by rewrite M3, M2'. }
  pose proof (apply_meta_outcome set_validator (validators meta) fields3) as H4.
  rewrite (find_undeclared_ext _ _ _ M3') in H4.
  destruct (apply_meta set_validator (validators meta) fields3) as [fields4|e]; simpl.
  2: { destruct H4 as (n & -> & ->). eauto. }
  destruct H4 as [-> M4]. split; [done|].
  intros n. by rewrite M4, M3'.
Qed.

Lemma ModelType_new_mem attrs n : dict_mem n (ModelType_new attrs) = dict_mem n attrs.
Proof.
  unfold dict_mem. induction attrs as [|[key f] rest IH]; simpl; [done|].
  by destruct (String.eqb n key).
Qed.

(** C8.  The configuration block of the class statement [d] refers to
    [name], and the class declares no descriptor under [name].  Then
    [_process_meta] raises the ValueError that the specification calls
    FieldNotFound, for the first undeclared name it reaches (aliases, then
    required, then converters, then validators), and returns no schema; the
    class statement, which runs [_process_meta] unless the class body sets
    [_no_parse_hints], raises the same error and yields no class. *)
Theorem undeclared_reference_aborts (d : class_decl) (name : string) :
  name ∈ meta_references (decl_meta d) ->
  name ∉ (decl_attrs d).*1 ->
  exists first,
    find (undeclared (decl_attrs d)) (meta_references (decl_meta d)) = Some first /\
    _process_meta (ModelType_new (decl_attrs d)) (decl_meta d)
      = Err (ValueError_not_defined first) /\
    classify (ValueError_not_defined first) = FieldNotFound /\
    (decl_no_parse_hints d = false ->
     ModelType_call d = Err (ValueError_not_defined first)).
Proof.
  intros Hin Hmem. apply dict_mem_false in Hmem.
  pose proof (process_meta_outcome (ModelType_new (decl_attrs d)) (decl_meta d)) as H.
  rewrite (find_undeclared_ext _ (decl_attrs d)) in H by apply ModelType_new_mem.
  destruct (_process_meta (ModelType_new (decl_attrs d)) (decl_meta d))
    as [fields'|e] eqn:E.
  - destruct H as [Hnone _]. exfalso.
    apply list_elem_of_In in Hin.
    pose proof (find_none _ _ Hnone _ Hin) as Hu.
    unfold undeclared in Hu. by rewrite Hmem in Hu.
  - destruct H as (first & -> & Hfind). exists first.
    split; [done|]. split; [done|]. split; [done|].
    intros Hflag. unfold ModelType_call. by rewrite Hflag, E.
Qed.

Lemma undeclared_reference_aborts_witness :
  "town" ∈ meta_references (decl_meta Town_decl) /\
  ("town" ∉ (decl_attrs Town_decl).*1) /\
  exists first,
    find (undeclared (decl_attrs Town_decl)) (meta_references (decl_meta Town_decl))
      = Some first /\
    _process_meta (ModelType_new (decl_attrs Town_decl)) (decl_meta Town_decl)
      = Err (ValueError_not_defined first) /\
    classify (ValueError_not_defined first) = FieldNotFound /\
    (decl_no_parse_hints Town_decl = false ->
     ModelType_call Town_decl = Err (ValueError_not_defined first)).
Proof.
  assert ("town" ∈ meta_references (decl_meta Town_decl)) as Hin.
  { simpl. apply list_elem_of_here. }
  assert ("town" ∉ (decl_attrs Town_decl).*1) as Hout.
  { by apply dict_mem_false. }
  split; [exact Hin|]. split; [exact Hout|].
  exact (undeclared_reference_aborts Town_decl "town" Hin Hout).
Defined.

(** * Further properties *)

(** ** What the leaf descriptors accept *)

Lemma bind_fst {A B} (m : M A) (k : A -> M B) :
  (bind m k).1 = match m.1 with Ok a => (k a).1 | Err e => Err e end.
Proof. destruct m as [[a|e] l]; simpl; [|done]. by destruct (k a). Qed.

Lemma Field_validate_accepts types b v :
  (Field_validate types b v).1 = Ok tt <->
  (v = VNone /\ required b = false) \/
  (v <> VNone /\ existsb (isinstance v) types = true /\ validator_accepts b v).
Proof.
  unfold Field_validate, validator_accepts, validate_type, validate_fn.
  destruct (is_none v) eqn:Hnone.
  - destruct v; try discriminate. destruct (required b); simpl; naive_solver.
  - assert (v <> VNone) as Hv by (intros ->; discriminate).
    rewrite bind_fst. destruct (existsb (isinstance v) types); simpl.
    + destruct (validator b) as [p|]; simpl; [|naive_solver].
      destruct (p v) as [[]|e]; simpl; naive_solver.
    + naive_solver.
Qed.



Lemma opt_check_value_max v q max_value :
  as_number v = Some q ->
  (opt_check max_value (validate_max_value v)).1 = Ok tt
  <-> at_most Qle q max_value.
Proof.
  intros Hq. destruct max_value as [m|]; simpl; [|done].
  unfold validate_max_value. rewrite Hq. rewrite <- Qle_bool_iff.
  destruct (Qle_bool q m); simpl; split; done.
Qed.

Lemma opt_check_value_min v q min_value :
  as_number v = Some q ->
  (opt_check min_value (validate_min_value v)).1 = Ok tt
  <-> at_least Qle q min_value.
Proof.
  intros Hq. destruct min_value as [m|]; simpl; [|done].
  unfold validate_min_value. rewrite Hq. rewrite <- Qle_bool_iff.
  destruct (Qle_bool m q); simpl; split; done.
Qed.


(** X2.  An integer field accepts exactly: null when it is not required, and
    an [int] or a [bool] (which Python counts as the integers 1 and 0) that
    its validator accepts and that lies between [min_value] and [max_value],
    both ends included.  A float field rejects every [int]. *)
Theorem int_field_accepts (max_value min_value : option Q) (b : base) (v : value) :
  ((validate (Leaf (IntField max_value min_value) b) v).1 = Ok tt <->
   (v = VNone /\ required b = false) \/
   (exists z : Z,
      (v = VInt z \/ (v = VBool true /\ z = 1%Z) \/ (v = VBool false /\ z = 0%Z)) /\
      validator_accepts b v /\
      at_most Qle (inject_Z z) max_value /\
      at_least Qle (inject_Z z) min_value)) /\
  (forall z, (validate (Leaf (FloatField max_value min_value) b) (VInt z)).1
             = Err (ValidationError WrongType)).
Proof.
  split; [|intros z; reflexivity].
  simpl. unfold Leaf_validate, expected_types. rewrite bind_fst.
  pose proof (Field_validate_accepts [T_int] b v) as Hbase. simpl in Hbase.
  assert (forall z, as_number v = Some (inject_Z z) ->
            v <> VNone -> validator_accepts b v ->
            ((if is_none v then ret tt
              else opt_check max_value (validate_max_value v) ;;;
                   opt_check min_value (validate_min_value v)).1 = Ok tt
             <-> at_most Qle (inject_Z z) max_value /\
                 at_least Qle (inject_Z z) min_value)) as Hbounds.
  { intros z Hz Hv _. destruct (is_none v) eqn:Hn; [by destruct v|].
    rewrite bind_fst.
    pose proof (opt_check_value_max v _ max_value Hz) as Hmax.
    pose proof (opt_check_value_min v _ min_value Hz) as Hmin.
    destruct (opt_check max_value (validate_max_value v)).1 as [[]|e'].
    - rewrite Hmin. naive_solver.
    - naive_solver. }
  destruct (Field_validate [T_int] b v).1 as [[]|e] eqn:E.
  - destruct Hbase as [Hbase _]. destruct (Hbase eq_refl) as [[-> Hreq]|(Hv & Hty & Hval)].
    + simpl. naive_solver.
    + destruct v as [| [] | z | | | | | | | | | |]; try discriminate; try done.
      * rewrite (Hbounds 1%Z eq_refl Hv Hval). naive_solver.
      * rewrite (Hbounds 0%Z eq_refl Hv Hval). naive_solver.
      * rewrite (Hbounds z eq_refl Hv Hval). naive_solver.
  - split; [done|]. intros H. assert (Err e = Ok tt); [|done].
    apply Hbase. destruct H as [H|(z & Hz & Hval & _)]; [by left|].
    right. destruct Hz as [->|[[-> _]|[-> _]]]; done.
Qed.

(** ** Conversion followed by validation *)

Lemma warn_extra_returns cls names items : (warn_extra cls names items).1 = Ok tt.
Proof.
  induction items as [|[key v] rest IH]; simpl; [done|].
  unfold warn. rewrite bind_fst. by destruct (str_mem key names).
Qed.

Lemma warn_extra_logs cls names items key :
  key ∈ items.*1 -> key ∉ names -> Warn key cls ∈ (warn_extra cls names items).2.
Proof.
  intros Hin Hout. induction items as [|[key' v] rest IH]; simpl in *.
  - by apply elem_of_nil in Hin.
  - unfold bind.
    destruct (warn_extra cls names rest) as [r l] eqn:E.
    apply elem_of_cons in Hin as [<-|Hin].
    + assert (str_mem key names = false) as ->.
      { destruct (str_mem key names) eqn:Hm; [|done]. by apply str_mem_true in Hm. }
      simpl. apply list_elem_of_here.
    + destruct (str_mem key' names); simpl; [by apply IH|].
      apply list_elem_of_further. by apply IH.
Qed.

Lemma validate_fields_accepts valid obj fields :
  (validate_fields valid obj fields).1 = Ok tt <->
  forall a f, (a, f) ∈ fields -> (valid f (obj_get a obj)).1 = Ok tt.
Proof.
  induction fields as [|[name fld] rest IH]; simpl.
  - split; [|done]. intros _ a f H. by apply elem_of_nil in H.
  - rewrite bind_fst. split.
    + destruct (valid fld (obj_get name obj)).1 as [[]|e] eqn:E; [|done].
      intros H a f Hin. apply elem_of_cons in Hin as [[= -> ->]|Hin]; [done|].
      by apply IH.
    + intros H. rewrite (H name fld) by apply list_elem_of_here.
      apply IH. intros a f Hin. apply H. by apply list_elem_of_further.
Qed.

Lemma EmbeddedField_validate_map b c bases fields retain warn_flag dc k items :
  validate (EmbeddedField b (Model c bases fields retain warn_flag dc)) (VMap k false items)
  = (Field_validate [T_MutableMapping] b (VMap k false items) ;;;
     validate_fields validate items fields ;;;
     if warn_flag
     then warn_extra c (map (fun nf => field_name nf.2) fields) items
     else ret tt).
Proof. reflexivity. Qed.

Lemma root_validate_map cls k items :
  (validate (root cls) (VMap k false items)).1
    = (validate_fields validate items (model_fields cls)).1.
Proof.
  destruct cls as [c bases fields retain warn_flag dc]. unfold root.
  rewrite EmbeddedField_validate_map, !bind_fst. simpl.
  destruct (validate_fields validate items fields).1 as [[]|e]; [|done].
  destruct warn_flag; [apply warn_extra_returns | done].
Qed.

Lemma unaliased_external_names cls :
  unaliased cls -> external_names (model_fields cls) = field_order cls.
Proof.
  unfold unaliased, external_names, field_order.
  induction (model_fields cls) as [|[a f] rest IH]; intros H; simpl; [done|].
  rewrite (H a f) by apply list_elem_of_here. f_equal.
  apply IH. intros a' f' Hin. apply H. by apply list_elem_of_further.
Qed.

(** What the output of [convert] holds for a declared field of an unaliased
    schema: the converted value, null standing for a missing entry too. *)
Lemma normalized_entry cls k skip obj items l a f :
  unaliased cls ->
  NoDup (field_order cls) ->
  dict_wf obj ->
  convert (root cls) (VMap k skip obj) = (Ok (VMap (model_dict_class cls) false items), l) ->
  (a, f) ∈ model_fields cls ->
  exists v lv, convert f (obj_get a obj) = (Ok v, lv) /\ obj_get a items = v.
Proof.
  intros Hun Hnd Hwf Hconv Hin.
  destruct (EmbeddedField_convert_map (plain "") cls (VMap k skip obj) k skip obj
              [] _ l eq_refl (root_Field_convert k skip obj) Hconv)
    as (rv & l1 & Hloop & [= ->] & _).
  rewrite <- (unaliased_external_names cls Hun) in Hnd.
  destruct (convert_fields_stored _ _ _ _ _ _ _ _ _ Hloop Hnd Hin)
    as (v & lv & Hv & Hget).
  exists v, lv. split; [done|].
  rewrite (Hun a f Hin) in Hget.
  unfold obj_get. rewrite copy_undeclared_get by done.
  assert (dict_mem a (model_fields cls) = true) as Hmem.
  { apply dict_mem_true. by apply (list_elem_of_fmap_2 fst _ _ Hin). }
  rewrite Hmem.
  assert (from_option id VNone (dict_get a rv) = v) as Hrv.
  { rewrite Hget. unfold stored. simpl.
    destruct v; simpl; try done. by destruct (model_retain_none cls). }
  by destruct (dict_get a obj).
Qed.

(** X3.  Round trip without aliases.  For a schema whose fields all keep
    their attribute name as external name, the map that [convert] returns
    holds every declared field's converted value under its name (a null value
    as a null entry or as no entry), and [validate] accepts that map exactly
    when every field's own [validate] accepts its converted value. *)
Theorem roundtrip_without_alias (cls : model) (k : map_kind) (skip : bool)
    (obj : list (string * value)) (out : value) (l : list event) :
  unaliased cls ->
  NoDup (field_order cls) ->
  dict_wf obj ->
  convert (root cls) (VMap k skip obj) = (Ok out, l) ->
  exists items,
    out = VMap (model_dict_class cls) false items /\
    (forall a f, (a, f) ∈ model_fields cls ->
       exists v lv, convert f (obj_get a obj) = (Ok v, lv) /\ obj_get a items = v) /\
    ((validate (root cls) out).1 = Ok tt <->
     forall a f v lv, (a, f) ∈ model_fields cls ->
       convert f (obj_get a obj) = (Ok v, lv) -> (validate f v).1 = Ok tt).
Proof.
  intros Hun Hnd Hwf Hconv.
  destruct (EmbeddedField_convert_map (plain "") cls (VMap k skip obj) k skip obj
              [] _ l eq_refl (root_Field_convert k skip obj) Hconv)
    as (rv & l1 & _ & -> & _).
  eexists. split; [done|].
  assert (forall a f, (a, f) ∈ model_fields cls ->
            exists v lv, convert f (obj_get a obj) = (Ok v, lv) /\
                         obj_get a (copy_undeclared (model_fields cls) obj rv) = v)
    as Hentry.
  { intros a f Hin. by eapply normalized_entry. }
  split; [exact Hentry|].
  rewrite root_validate_map, validate_fields_accepts. split.
  - intros H a f v lv Hin Hv. destruct (Hentry a f Hin) as (v' & lv' & Hv' & <-).
    rewrite Hv in Hv'. injection Hv' as -> _. by apply H.
  - intros H a f Hin. destruct (Hentry a f Hin) as (v & lv & Hv & ->). by eapply H.
Qed.

Lemma roundtrip_without_alias_witness :
  let input := [("city", VStr "NYC")] in
  unaliased Address /\ NoDup (field_order Address) /\ dict_wf input /\
  convert (root Address) (VMap PlainDict false input)
    = (Ok (VMap AttrDict false [("city", VStr "NYC")]), []) /\
  exists items,
    VMap AttrDict false [("city", VStr "NYC")]
      = VMap (model_dict_class Address) false items /\
    obj_get "city" items = VStr "NYC".
Proof.
  cbv zeta.
  assert (unaliased Address) as Hun.
  { intros a f Hin. apply list_elem_of_singleton in Hin. by injection Hin as -> ->. }
  assert (NoDup (field_order Address)) as Hnd.
  { simpl. repeat constructor; set_solver. }
  assert (dict_wf [("city", VStr "NYC")]) as Hwf.
  { unfold dict_wf. simpl. repeat constructor; set_solver. }
  split; [exact Hun|]. split; [exact Hnd|]. split; [exact Hwf|]. split; [reflexivity|].
  destruct (roundtrip_without_alias Address PlainDict false [("city", VStr "NYC")]
              _ [] Hun Hnd Hwf eq_refl) as (items & Hout & Hentry & _).
  exists items. split; [exact Hout|].
  destruct (Hentry "city" _ (list_elem_of_here _ _)) as (v & lv & Hv & Hget).
  rewrite Hget. by injection Hv as <- _.
Defined.

(** ** Order of the keys of the normalized map *)

Lemma dict_set_keys_new {A} k (v : A) d : k ∉ d.*1 -> (dict_set k v d).*1 = d.*1 ++ [k].
Proof.
  induction d as [|[k' v'] d IH]; csimpl; [done|].
  intros Hk. apply not_elem_of_cons in Hk as [Hne Hk].
  destruct (String.eqb k k') eqn:E; [by apply String.eqb_eq in E|].
  csimpl. by rewrite IH.
Qed.

Lemma convert_fields_keys conv obj fields rv0 rv l :
  convert_fields conv true obj fields rv0 = (Ok rv, l) ->
  NoDup (rv0.*1 ++ external_names fields) ->
  rv.*1 = rv0.*1 ++ external_names fields.
Proof.
  revert rv0 l. induction fields as [|[name fld] rest IH]; intros rv0 l; simpl.
  - intros [= <- _] _. by rewrite app_nil_r.
  - intros H Hnd. apply bind_Ok in H as (v & l1 & l2 & _ & Hrest & _).
    assert (field_name fld ∉ rv0.*1) as Hfresh.
    { apply NoDup_app in Hnd as (_ & Hdisj & _). intros Hin.
      apply (Hdisj _ Hin). apply list_elem_of_here. }
    assert (forall w, (dict_set (field_name fld) w rv0).*1 = rv0.*1 ++ [field_name fld])
      as Hkeys by (intros w; by apply dict_set_keys_new).
    replace (rv0.*1 ++ field_name fld :: external_names rest)
      with ((rv0.*1 ++ [field_name fld]) ++ external_names rest) in *
      by (by rewrite <- app_assoc).
    destruct (is_none v).
    + rewrite <- (Hkeys VNone). apply (IH _ _ Hrest). by rewrite Hkeys.
    + rewrite <- (Hkeys v). apply (IH _ _ Hrest). by rewrite Hkeys.
Qed.

Lemma copy_undeclared_keys fields items rv :
  NoDup items.*1 ->
  (forall key, key ∈ items.*1 -> key ∉ fields.*1 -> key ∉ rv.*1) ->
  (copy_undeclared fields items rv).*1
    = rv.*1 ++ filter (fun key => key ∉ fields.*1) items.*1.
Proof.
  revert rv. induction items as [|[key v] rest IH]; intros rv Hnd Hfresh; simpl.
  - by rewrite app_nil_r.
  - simpl in Hnd. apply NoDup_cons in Hnd as [Hkey Hnd].
    rewrite filter_cons. destruct (dict_mem key fields) eqn:Hmem.
    + apply dict_mem_true in Hmem. rewrite decide_False by tauto.
      apply IH; [done|]. intros key' Hin. apply Hfresh. by apply list_elem_of_further.
    + apply dict_mem_false in Hmem. rewrite decide_True by done.
      assert (key ∉ rv.*1) as Hnew.
      { apply Hfresh; [apply list_elem_of_here | done]. }
      rewrite IH; [|done|].
      * rewrite (dict_set_keys_new _ _ _ Hnew). by rewrite <- app_assoc.
      * intros key' Hin Hun. rewrite (dict_set_keys_new _ _ _ Hnew).
        apply not_elem_of_app. split.
        -- apply Hfresh; [by apply list_elem_of_further | done].
        -- intros Heq. apply list_elem_of_singleton in Heq. by subst.
Qed.

(** X4.  Order preservation.  When the schema retains nulls, has pairwise
    distinct external names, and the input has no undeclared key equal to an
    external name, the keys of the map that [convert] returns are the
    external names in declaration order, followed by the undeclared keys of
    the input in the input's order. *)
Theorem normalized_key_order (cls : model) (k : map_kind) (skip : bool)
    (obj : list (string * value)) (out : value) (l : list event) :
  model_retain_none cls = true ->
  NoDup (external_names (model_fields cls)) ->
  dict_wf obj ->
  (forall key, key ∈ obj.*1 -> key ∉ field_order cls ->
               key ∉ external_names (model_fields cls)) ->
  convert (root cls) (VMap k skip obj) = (Ok out, l) ->
  exists items,
    out = VMap (model_dict_class cls) false items /\
    items.*1 = external_names (model_fields cls)
               ++ filter (fun key => key ∉ field_order cls) obj.*1.
Proof.
  intros Hretain Hnd Hwf Hfresh Hconv.
  destruct (EmbeddedField_convert_map (plain "") cls (VMap k skip obj) k skip obj
              [] _ l eq_refl (root_Field_convert k skip obj) Hconv)
    as (rv & l1 & Hloop & -> & _).
  eexists. split; [done|]. rewrite Hretain in Hloop.
  apply convert_fields_keys in Hloop; [|done]. simpl in Hloop.
  rewrite copy_undeclared_keys; [by rewrite Hloop|done|].
  rewrite Hloop. exact Hfresh.
Qed.

Lemma normalized_key_order_witness :
  let input := [("note", VStr "x"); ("name", VStr "Ann")] in
  model_retain_none User = true /\
  NoDup (external_names (model_fields User)) /\
  dict_wf input /\
  convert (root User) (VMap PlainDict false input)
    = (Ok (VMap AttrDict false
             [("name", VStr "Ann"); ("address", VNone); ("note", VStr "x")]), []) /\
  exists items,
    VMap AttrDict false [("name", VStr "Ann"); ("address", VNone); ("note", VStr "x")]
      = VMap (model_dict_class User) false items /\
    items.*1 = ["name"; "address"; "note"].
Proof.
  cbv zeta.
  assert (NoDup (external_names (model_fields User))) as Hnd.
  { simpl. repeat constructor; set_solver. }
  assert (dict_wf [("note", VStr "x"); ("name", VStr "Ann")]) as Hwf.
  { unfold dict_wf. simpl. repeat constructor; set_solver. }
  split; [reflexivity|]. split; [exact Hnd|]. split; [exact Hwf|].
  split; [reflexivity|].
  destruct (normalized_key_order User PlainDict false
              [("note", VStr "x"); ("name", VStr "Ann")]
              (VMap AttrDict false
                 [("name", VStr "Ann"); ("address", VNone); ("note", VStr "x")])
              [] eq_refl Hnd Hwf)
    as (items & Hout & Hkeys); [|reflexivity|].
  - intros key _ Hundeclared. exact Hundeclared.
  - exists items. split; [exact Hout|]. rewrite Hkeys. reflexivity.
Defined.

(** ** Extra keys are reported, never rejected *)

(** X5.  Whether a model warns about extra data does not change what
    [validate] accepts, and with the warning on, a map that [validate]
    accepts gets one warning logged for every key that is no external name
    of the schema. *)
Theorem extra_keys_only_warn (b : base) (c : string) (bases : list string)
    (fields : list (string * field)) (retain : bool) (dc : map_kind) :
  (forall v,
     (validate (EmbeddedField b (Model c bases fields retain true dc)) v).1
     = (validate (EmbeddedField b (Model c bases fields retain false dc)) v).1) /\
  (forall k items l key,
     validate (EmbeddedField b (Model c bases fields retain true dc)) (VMap k false items)
       = (Ok tt, l) ->
     key ∈ items.*1 ->
     key ∉ external_names fields ->
     Warn key c ∈ l).
Proof.
  split.
  - intros v. simpl. destruct (has_skip_validate v); [done|].
    rewrite !bind_fst. destruct (Field_validate [T_MutableMapping] b v).1; [|done].
    destruct v; try done. rewrite !bind_fst.
    destruct (validate_fields validate items fields).1; [|done].
    simpl. apply warn_extra_returns.
  - intros k items l key Hval Hin Hout.
    rewrite EmbeddedField_validate_map in Hval.
    apply bind_Ok in Hval as ([] & l1 & l2 & _ & Hval & ->).
    apply bind_Ok in Hval as ([] & l3 & l4 & _ & Hwarn & ->).
    apply elem_of_app. right. apply elem_of_app. right.
    pose proof (warn_extra_logs c (map (fun nf => field_name nf.2) fields) items key
                  Hin Hout) as Hlog.
    by rewrite Hwarn in Hlog.
Qed.

Lemma extra_keys_only_warn_witness :
  let items := [("city", VStr "NYC"); ("note", VStr "x")] in
  validate (root Address) (VMap AttrDict false items)
    = (Ok tt, [Warn "note" "Address"]) /\
  "note" ∈ items.*1 /\
  ("note" ∉ external_names (model_fields Address)) /\
  Warn "note" "Address" ∈ [Warn "note" "Address"].
Proof.
  cbv zeta.
  assert ("note" ∈ [("city", VStr "NYC"); ("note", VStr "x")].*1) as Hin.
  { simpl. set_solver. }
  assert ("note" ∉ external_names (model_fields Address)) as Hout.
  { simpl. set_solver. }
  split; [reflexivity|]. split; [exact Hin|]. split; [exact Hout|].
  destruct (extra_keys_only_warn (plain "") "Address" embedded_bases
              (model_fields Address) true AttrDict) as [_ Hwarn].
  exact (Hwarn AttrDict [("city", VStr "NYC"); ("note", VStr "x")]
           [Warn "note" "Address"] "note" eq_refl Hin Hout).
Defined.

(** ** Reads after writes and deletes *)

(** What a write that returns has done. *)
Lemma Field_set_returns retain f mro data dk md dl v l i' :
  Field_set retain f (Inst mro data dk md dl) v = ((Ok tt, l), i') ->
  exists c lc k skip items,
    convert f v = (Ok c, lc) /\
    (validate f c).1 = Ok tt /\
    data = VMap k skip items /\
    if is_none c then
      i' = Inst mro
             (VMap k skip (if retain then dict_set (field_name f) VNone items
                           else dict_pop (field_name f) items))
             (dict_pop (field_name f) dk) md dl
    else
      exists rv lm,
        materialize f c = (Ok rv, lm) /\
        i' = Inst mro (VMap k skip (dict_set (field_name f) c items))
               (if is_embedded f || is_array f
                then dict_set (field_name f) rv dk else dk) md dl.
Proof.
  unfold Field_set.
  destruct (bind (convert f v) _) as [[c|e] l0] eqn:E; [|discriminate].
  apply bind_Ok in E as (c' & lc & l2 & Hconv & E & ->).
  apply bind_Ok in E as ([] & l3 & l4 & Hval & [= <- <-] & ->).
  intros H. exists c', lc.
  destruct data as [| | | | | | | | | |k skip items| |];
    try (destruct (is_none c'), retain; simpl in H; discriminate).
  exists k, skip, items. split; [done|]. split; [by rewrite Hval|]. split; [done|].
  destruct (is_none c') eqn:Hnone; simpl in H.
  - destruct retain; simpl in H; by injection H as _ <-.
  - destruct f as [kd b|b elem|b m]; simpl in *.
    + injection H as _ <-. by exists c', [].
    + destruct (_convert_data_in_list_to_model elem c') as [[rv|e] lm] eqn:Hw;
        [|discriminate].
      injection H as _ <-. by exists rv, lm.
    + injection H as _ <-. eexists _, []. done.
Qed.

Lemma setattr_declared cls mro data dk md dl a f v :
  dict_get a (model_fields cls) = Some f ->
  exists md' dl',
    __setattr__ cls (Inst mro data dk md dl) a v
      = Field_set (model_retain_none cls) f (Inst mro data dk md' dl') v.
Proof.
  intros Hf. unfold __setattr__. rewrite Hf.
  destruct (marker_shape cls a v mro data dk md dl) as (md' & dl' & ->). eauto.
Qed.

(** X6.  Read after write.  After an assignment to a declared attribute that
    returns with a non-null converted value, reading the attribute returns
    that converted value for a leaf field, and for a nested-record or array
    field the object that the assignment built from it; the read changes
    nothing and calls nothing. *)
Theorem read_after_write (cls : model) (i i' : instance) (a : string) (f : field)
    (v : value) (l : list event) :
  dict_get a (model_fields cls) = Some f ->
  __setattr__ cls i a v = ((Ok tt, l), i') ->
  exists c lc,
    convert f v = (Ok c, lc) /\
    (c <> VNone ->
     exists rv lm,
       materialize f c = (Ok rv, lm) /\
       (is_embedded f || is_array f = false -> rv = c) /\
       Field_get f i' = ((Ok rv, []), i')).
Proof.
  intros Hf Hset. destruct i as [mro data dk md dl].
  destruct (setattr_declared cls mro data dk md dl a f v Hf) as (md' & dl' & E).
  rewrite E in Hset.
  apply Field_set_returns in Hset
    as (c & lc & k & skip & items & Hconv & _ & -> & Hshape).
  exists c, lc. split; [done|]. intros Hc.
  destruct (is_none c) eqn:Hnone; [by destruct c|].
  destruct Hshape as (rv & lm & Hmat & ->). exists rv, lm. split; [done|].
  split.
  - intros Hleaf. destruct f; try discriminate. simpl in Hmat. by injection Hmat as <- _.
  - unfold Field_get, data_getitem. rewrite dict_get_set_eq.
    destruct (is_embedded f || is_array f) eqn:Hkind; simpl.
    + rewrite dict_get_set_eq. by destruct c.
    + destruct f; try discriminate. simpl in Hmat. injection Hmat as <- _.
      by destruct c.
Qed.

Lemma read_after_write_witness :
  let user := from_data User (VMap AttrDict false [("name", VStr "Ann")]) in
  let address := EmbeddedField (plain "address") Address in
  let input := VMap PlainDict false [("city", VStr "NYC")] in
  let stored := VMap AttrDict false [("city", VStr "NYC")] in
  dict_get "address" (model_fields User) = Some address /\
  (__setattr__ User user "address" input).1 = (Ok tt, []) /\
  convert address input = (Ok stored, []) /\
  Field_get address (__setattr__ User user "address" input).2
    = ((Ok (VInst (from_data Address stored)), []),
       (__setattr__ User user "address" input).2).
Proof.
  cbv zeta. split; [reflexivity|]. split; [reflexivity|]. split; [reflexivity|].
  destruct (read_after_write User
              (from_data User (VMap AttrDict false [("name", VStr "Ann")]))
              (__setattr__ User
                 (from_data User (VMap AttrDict false [("name", VStr "Ann")]))
                 "address" (VMap PlainDict false [("city", VStr "NYC")])).2
              "address" _ (VMap PlainDict false [("city", VStr "NYC")]) []
              eq_refl eq_refl) as (c & lc & Hconv & Hread).
  injection Hconv as <- _.
  destruct (Hread ltac:(discriminate)) as (rv & lm & Hmat & _ & Hget).
  injection Hmat as <- _. exact Hget.
Defined.

(** X7.  A read is repeatable.  When reading an attribute returns, reading
    it again returns the same object, changes nothing and calls nothing: an
    object materialized by the first read is the one every later read
    returns. *)
Theorem read_is_repeatable (f : field) (i i' : instance) (rv : value)
    (l : list event) :
  Field_get f i = ((Ok rv, l), i') ->
  Field_get f i' = ((Ok rv, []), i').
Proof.
  destruct i as [mro data dk md dl]. unfold Field_get at 1.
  destruct (data_getitem (field_name f) data) as [stored|e] eqn:Hdata;
    [|discriminate].
  destruct (is_none stored) eqn:Hnone.
  { destruct stored; try discriminate. intros [= <- <- <-].
    unfold Field_get. by rewrite Hdata. }
  destruct (negb (is_embedded f || is_array f)) eqn:Hkind.
  { intros H. assert (rv = stored /\ l = [] /\ i' = Inst mro data dk md dl) as (-> & -> & ->).
    { destruct stored; try discriminate; by injection H as <- <- <-. }
    unfold Field_get. rewrite Hdata, Hkind. by destruct stored. }
  destruct (dict_get (field_name f) dk) as [cached|] eqn:Hcache.
  { intros H. assert (rv = cached /\ l = [] /\ i' = Inst mro data dk md dl) as (-> & -> & ->).
    { destruct stored; try discriminate; by injection H as <- <- <-. }
    unfold Field_get. rewrite Hdata, Hkind, Hcache. by destruct stored. }
  destruct (materialize f stored) as [[built|e] lm] eqn:Hmat.
  - intros H.
    assert (rv = built /\ i' = Inst mro data (dict_set (field_name f) built dk) md dl)
      as (-> & ->).
    { destruct stored; try discriminate; by injection H as <- _ <-. }
    unfold Field_get. rewrite Hdata, Hkind, dict_get_set_eq. by destruct stored.
  - intros H. destruct stored; discriminate.
Qed.

Lemma read_is_repeatable_witness :
  let address := EmbeddedField (plain "address") Address in
  let stored := VMap AttrDict false [("city", VStr "NYC")] in
  let user := from_data User (VMap AttrDict false [("address", stored)]) in
  (Field_get address user).1 = (Ok (VInst (from_data Address stored)), []) /\
  Field_get address (Field_get address user).2
    = ((Ok (VInst (from_data Address stored)), []), (Field_get address user).2).
Proof.
  cbv zeta. split; [reflexivity|].
  apply (read_is_repeatable (EmbeddedField (plain "address") Address)
           (from_data User
              (VMap AttrDict false [("address", VMap AttrDict false [("city", VStr "NYC")])]))
           _ _ []).
  reflexivity.
Defined.

Lemma delattr_declared cls mro data dk md dl a f :
  dict_get a (model_fields cls) = Some f ->
  exists md' dl',
    __delattr__ cls (Inst mro data dk md dl) a
      = Field_delete f (Inst mro data dk md' dl').
Proof.
  intros Hf. unfold __delattr__. rewrite Hf.
  destruct (str_mem a (field_order cls)); [|eauto].
  unfold mark_deleted. simpl. eauto.
Qed.

(** X8.  Read after delete.  Deleting a declared attribute of an instance
    over a mapping returns, whether or not the attribute had a value; the
    entry under the field's external name is gone and the other entries are
    untouched; a read of the attribute then raises the attribute error, and
    deleting it once more returns again. *)
Theorem read_after_delete (cls : model) (i : instance) (a : string) (f : field)
    (k : map_kind) (skip : bool) (items : list (string * value)) :
  dict_get a (model_fields cls) = Some f ->
  inst_data i = VMap k skip items ->
  dict_wf items ->
  let i' := (__delattr__ cls i a).2 in
  (__delattr__ cls i a).1 = (Ok tt, []) /\
  inst_data i' = VMap k skip (dict_pop (field_name f) items) /\
  (forall key, key <> field_name f ->
     dict_get key (dict_pop (field_name f) items) = dict_get key items) /\
  Field_get f i' = ((Err (AttributeError_no_value (field_name f)), []), i') /\
  (__delattr__ cls i' a).1 = (Ok tt, []).
Proof.
  intros Hf Hdata Hwf. destruct i as [mro data dk md dl]. simpl in Hdata. subst data.
  cbv zeta.
  destruct (delattr_declared cls mro (VMap k skip items) dk md dl a f Hf)
    as (md' & dl' & ->).
  simpl. split; [done|]. split; [done|]. split.
  { intros key Hne. by apply dict_get_pop_ne. }
  split.
  - unfold data_getitem. by rewrite dict_get_pop_eq.
  - destruct (delattr_declared cls mro (VMap k skip (dict_pop (field_name f) items))
                (dict_pop (field_name f) dk) md' dl' a f Hf) as (md'' & dl'' & ->).
    done.
Qed.

Lemma read_after_delete_witness :
  let city := Leaf (StringField None None) (plain "city") in
  let obj := from_data Address (VMap AttrDict false [("city", VStr "NYC")]) in
  dict_get "city" (model_fields Address) = Some city /\
  dict_wf [("city", VStr "NYC")] /\
  (__delattr__ Address obj "city").1 = (Ok tt, []) /\
  Field_get city (__delattr__ Address obj "city").2
    = ((Err (AttributeError_no_value "city"), []), (__delattr__ Address obj "city").2).
Proof.
  cbv zeta.
  assert (dict_wf [("city", VStr "NYC")]) as Hwf.
  { unfold dict_wf. simpl. repeat constructor; set_solver. }
  split; [reflexivity|]. split; [exact Hwf|].
  destruct (read_after_delete Address
              (from_data Address (VMap AttrDict false [("city", VStr "NYC")]))
              "city" _ AttrDict false [("city", VStr "NYC")] eq_refl eq_refl Hwf)
    as (Hdel & _ & _ & Hget & _).
  split; [exact Hdel | exact Hget].
Defined.

(** X9.  Read after a null write.  After an assignment whose converted value
    is null, to a declared attribute that is not required, a read returns
    null when the class retains nulls and raises the attribute error when it
    does not. *)
Theorem read_after_null_write (cls : model) (i : instance) (a : string) (f : field)
    (v : value) (k : map_kind) (skip : bool) (items : list (string * value))
    (l : list event) :
  dict_get a (model_fields cls) = Some f ->
  inst_data i = VMap k skip items ->
  dict_wf items ->
  required (field_base f) = false ->
  convert f v = (Ok VNone, l) ->
  let i' := (__setattr__ cls i a v).2 in
  (__setattr__ cls i a v).1 = (Ok tt, l) /\
  Field_get f i'
    = ((if model_retain_none cls then Ok VNone
        else Err (AttributeError_no_value (field_name f)), []), i').
Proof.
  intros Hf Hdata Hwf Hreq Hconv. destruct i as [mro data dk md dl].
  simpl in Hdata. subst data. cbv zeta.
  destruct (setattr_declared cls mro (VMap k skip items) dk md dl a f v Hf)
    as (md' & dl' & ->).
  rewrite (Field_set_null _ _ _ _ _ _ _ _ _ _ _ Hreq Hconv). simpl.
  split; [done|]. unfold data_getitem.
  destruct (model_retain_none cls).
  - by rewrite dict_get_set_eq.
  - by rewrite dict_get_pop_eq.
Qed.

Lemma read_after_null_write_witness :
  let city := Leaf (StringField None None) (plain "city") in
  let stored := VMap AttrDict false [("city", VStr "NYC")] in
  dict_wf [("city", VStr "NYC")] /\
  required (field_base city) = false /\
  convert city VNone = (Ok VNone, []) /\
  (Field_get city (__setattr__ Address (from_data Address stored) "city" VNone).2).1
    = (Ok VNone, []) /\
  (Field_get city (__setattr__ Venue (from_data Venue stored) "city" VNone).2).1
    = (Err (AttributeError_no_value "city"), []).
Proof.
  cbv zeta.
  assert (dict_wf [("city", VStr "NYC")]) as Hwf.
  { unfold dict_wf. simpl. repeat constructor; set_solver. }
  split; [exact Hwf|]. split; [reflexivity|]. split; [reflexivity|]. split.
  - destruct (read_after_null_write Address
                (from_data Address (VMap AttrDict false [("city", VStr "NYC")]))
                "city" _ VNone AttrDict false [("city", VStr "NYC")] []
                eq_refl eq_refl Hwf eq_refl eq_refl) as [_ ->].
    reflexivity.
  - destruct (read_after_null_write Venue
                (from_data Venue (VMap AttrDict false [("city", VStr "NYC")]))
                "city" _ VNone AttrDict false [("city", VStr "NYC")] []
                eq_refl eq_refl Hwf eq_refl eq_refl) as [_ ->].
    reflexivity.
Defined.

(** ** Writes that raise *)




(** ** Schema assembly that succeeds *)
















(** ** Dirty paths *)

Lemma clear_mro i : inst_mro (_clear_marked_fields i) = inst_mro i.
Proof. by destruct i. Qed.

Lemma combine_eq attr mro data dk md dl prev :
  combine attr (Inst mro data dk md dl) prev =
    map (String.append prev) (elements (marked (attr (Inst mro data dk md dl)))) ++
    concat
      (map (fun kv : string * value =>
              match kv.2 with
              | VInst nested =>
                  if isinstance_cls nested "EmbeddedModel"
                     && negb (bool_decide (kv.1 ∈ marked (attr (Inst mro data dk md dl))))
                  then combine attr nested (String.append prev (String.append kv.1 "."))
                  else []
              | _ => []
              end) dk).
Proof.
  simpl. f_equal. f_equal. apply map_ext. by intros [key v].
Qed.









Lemma concat_map_dict_set {A B} (g : string * A -> list B) key w w' dk :
  g (key, w) = g (key, w') ->
  concat (map g (dict_set key w dk)) = concat (map g (dict_set key w' dk)).
Proof.
  intros Hg. induction dk as [|[k0 v0] rest IH]; simpl.
  - by rewrite Hg.
  - destruct (String.eqb key k0); simpl; [by rewrite Hg|]. by rewrite IH.
Qed.

(** X13.  A marked attribute hides what lies beneath it.  When [key] is in
    the dirty set that is being combined, the object held under [key] in the
    instance [__dict__] contributes no path: replacing it by any other object
    leaves the combined paths as they are. *)
Theorem marked_key_hides_nested (attr : instance -> option (gset string))
    (i : instance) (key prev : string) (w w' : value) :
  (attr = inst_modified \/ attr = inst_deleted) ->
  key ∈ marked (attr i) ->
  combine attr (dict_store key w i) prev = combine attr (dict_store key w' i) prev.
Proof.
  intros Hattr Hkey. destruct i as [mro data dk md dl].
  unfold dict_store. rewrite !combine_eq.
  assert (forall d, marked (attr (Inst mro data d md dl))
                    = marked (attr (Inst mro data dk md dl))) as Hsame.
  { intros d. by destruct Hattr as [-> | ->]. }
  rewrite (Hsame (dict_set key w dk)), (Hsame (dict_set key w' dk)).
  f_equal. apply concat_map_dict_set. simpl.
  assert (forall u : value,
            match u with
            | VInst nested =>
                if isinstance_cls nested "EmbeddedModel"
                   && negb (bool_decide (key ∈ marked (attr (Inst mro data dk md dl))))
                then combine attr nested (String.append prev (String.append key "."))
                else []
            | _ => []
            end = []) as Hnone.
  { intros u. destruct u; try done.
    rewrite bool_decide_eq_true_2 by done. by rewrite andb_false_r. }
  by rewrite !Hnone.
Qed.

Lemma marked_key_hides_nested_witness :
  let user := (__setattr__ User (from_data User (VMap AttrDict false [])) "address"
                 (VMap PlainDict false [("city", VStr "NYC")])).2 in
  let touched := (__setattr__ Address
                    (from_data Address (VMap AttrDict false [("city", VStr "NYC")]))
                    "city" (VStr "Boston")).2 in
  "address" ∈ marked (inst_modified user) /\
  (_combine_marked_fields (dict_store "address" (VInst touched) user)).1 = ["address"].
Proof.
  cbv zeta.
  assert ("address" ∈ marked (inst_modified
            (__setattr__ User (from_data User (VMap AttrDict false [])) "address"
               (VMap PlainDict false [("city", VStr "NYC")])).2)) as Hkey.
  { vm_compute. set_solver. }
  split; [exact Hkey|].
  etrans;
    [exact (marked_key_hides_nested inst_modified
              (__setattr__ User (from_data User (VMap AttrDict false [])) "address"
                 (VMap PlainDict false [("city", VStr "NYC")])).2
              "address" ""
              (VInst (__setattr__ Address
                        (from_data Address (VMap AttrDict false [("city", VStr "NYC")]))
                        "city" (VStr "Boston")).2)
              VNone (or_introl eq_refl) Hkey)
    | vm_compute; reflexivity].
Defined.

Lemma clear_isinstance i c :
  isinstance_cls (_clear_marked_fields i) c = isinstance_cls i c.
Proof. unfold isinstance_cls. by rewrite clear_mro. Qed.

Lemma combine_modified_after_clear (i : instance) :
  forall prev, combine inst_modified (_clear_marked_fields i) prev = [].
Proof.
  induction i as [mro data dk md dl IH] using instance_dict_ind. intros prev.
  pose proof (clear_empties_modified (Inst mro data dk md dl)) as Hempty.
  destruct (_clear_marked_fields (Inst mro data dk md dl))
    as [mro' data' dk' md' dl'] eqn:Hclear.
  assert (dk' = map (fun kv : string * value =>
                       (kv.1,
                        match kv.2 with
                        | VInst nested =>
                            if isinstance_cls nested "EmbeddedModel"
                            then VInst (_clear_marked_fields nested)
                            else kv.2
                        | _ => kv.2
                        end)) dk) as ->.
  { simpl in Hclear. injection Hclear as _ _ <- _ _.
    apply map_ext. by intros [key w]. }
  clear Hclear. simpl in Hempty. rewrite combine_eq. simpl inst_modified.
  rewrite Hempty, elements_empty. clear Hempty. simpl.
  induction IH as [|[key w] rest Hw _ IHrest]; simpl; [done|].
  rewrite IHrest, app_nil_r.
  destruct w; try done. simpl in Hw.
  destruct (isinstance_cls i "EmbeddedModel") eqn:Hcls; simpl.
  - rewrite clear_isinstance, Hcls. simpl.
    destruct (bool_decide _); simpl; [done | apply Hw].
  - by rewrite Hcls.
Qed.

Lemma combine_deleted_after_clear (i : instance) :
  forall prev, combine inst_deleted (_clear_marked_fields i) prev
               = combine inst_deleted i prev.
Proof.
  induction i as [mro data dk md dl IH] using instance_dict_ind. intros prev.
  pose proof (clear_keeps_deleted (Inst mro data dk md dl)) as Hkeep.
  destruct (_clear_marked_fields (Inst mro data dk md dl))
    as [mro' data' dk' md' dl'] eqn:Hclear.
  assert (dk' = map (fun kv : string * value =>
                       (kv.1,
                        match kv.2 with
                        | VInst nested =>
                            if isinstance_cls nested "EmbeddedModel"
                            then VInst (_clear_marked_fields nested)
                            else kv.2
                        | _ => kv.2
                        end)) dk) as ->.
  { simpl in Hclear. injection Hclear as _ _ <- _ _.
    apply map_ext. by intros [key w]. }
  clear Hclear. simpl in Hkeep. subst dl'. rewrite !combine_eq. simpl inst_deleted.
  f_equal. f_equal.
  induction IH as [|[key w] rest Hw _ IHrest]; simpl; [done|].
  rewrite IHrest. f_equal.
  destruct w; try done. simpl in Hw.
  destruct (isinstance_cls i "EmbeddedModel") eqn:Hcls; simpl.
  - rewrite clear_isinstance, Hcls. simpl.
    destruct (bool_decide _); simpl; [done | apply Hw].
  - by rewrite Hcls.
Qed.

(** X14.  Clearing and combining.  After [_clear_marked_fields],
    [_combine_marked_fields] lists no modified path, at any depth of
    nesting, and lists the deleted paths it listed before the call. *)
Theorem combine_after_clear (i : instance) :
  (_combine_marked_fields (_clear_marked_fields i)).1 = [] /\
  (_combine_marked_fields (_clear_marked_fields i)).2 = (_combine_marked_fields i).2.
Proof.
  unfold _combine_marked_fields. simpl. split.
  - apply combine_modified_after_clear.
  - apply combine_deleted_after_clear.
Qed.

(** ** Descriptors from type hints *)








(** ** What an array field accepts *)



(** ** Converting what was converted *)











